(** * The API client and the data-fetching hooks of the frontend template

    A shallow embedding of [lib/api/client.ts] (the request engine:
    headers, timeout, retry loop, error normalisation) and of the generic
    hooks of [lib/api/hooks.ts] ([useApi], [usePaginatedApi], [useAuth]),
    followed by the properties of the specification that concern them.

    Conventions.
    - A JavaScript [number] that the code uses as a counter, a status or a
      number of milliseconds is a [Z].
    - A [Record<string, string>] of headers is a [gmap string string]; the
      object spread [{...a, ...b}] is the union in which [b] wins.
    - An optional field or parameter is an [option].
    - An [async] function is run to completion: what it awaits is given by
      the environment (the network, the producer passed to a hook), and
      what it does to the outside is recorded in a trace.
    - A [throw] is the [Threw] completion, a [return] the [Returned] one.
    - A function that a hook returns reads the [useState] cells as they are
      when it is called (it is the callback of the latest render), and the
      setters it calls take effect in the order of the calls. *)

From Stdlib Require Import ZArith Lia.
From stdpp Require Import base option list strings gmap pretty.

Local Open Scope Z_scope.

(** ** JavaScript values the code handles *)

(** [a || b] on a [string | undefined]: the empty string is falsy. *)
Definition str_or (a : option string) (b : string) : string :=
  match a with
  | Some s => if decide (s = "") then b else s
  | None => b
  end.

(** [a || b] on an [array | undefined]: every array, also [[]], is truthy. *)
Definition arr_or {A : Type} (a : option (list A)) (b : list A) : list A :=
  match a with
  | Some l => l
  | None => b
  end.

(** An [Error] object that is not an [ApiError]: the [TypeError] of a failed
    [fetch], the [DOMException] of an aborted one, the [SyntaxError] of
    [response.json()]. *)
Module JsError.
Record t : Type := mk { name : string; message : string }.
End JsError.

(** [class ApiError extends Error]: [name] is the constant ['ApiError']. *)
Module ApiError.
Record t : Type := mk { message : string; status : Z; errors : list string }.

(** [constructor(message, status = 500, errors = [])] *)
Definition new (message : string) (status : option Z)
    (errors : option (list string)) : t :=
  {| message := message;
     status := default 500 status;
     errors := default [] errors |}.
End ApiError.

(** What a [catch (error)] clause can receive. *)
Inductive Thrown : Type :=
  | ThrownApi (e : ApiError.t)      (* error instanceof ApiError *)
  | ThrownJs (e : JsError.t).

(** How a call of an [async] function ends. *)
Inductive Completion (A : Type) : Type :=
  | Returned (v : A)
  | Threw (t : Thrown).
Arguments Returned {A} v.
Arguments Threw {A} t.

(** [interface ApiResponse<T>] *)
Module ApiResponse.
Record t (T : Type) : Type := mk {
  data : T;
  message : option string;
  success : bool;
  errors : option (list string)
}.
Arguments mk {T} _ _ _ _.
Arguments data {T} _.
Arguments message {T} _.
Arguments success {T} _.
Arguments errors {T} _.
End ApiResponse.

(** The fields that [makeRequest] reads from a decoded error body,
    [errorData.message] and [errorData.errors], at the types with which
    they enter [new ApiError]. This is the view of a body that honours the
    wire contract: an object whose [message], when there, is a text and
    whose [errors], when there, is a list of texts. What the engine does
    with any other body ([null], an [errors] that is not a list) is in
    [Untyped], and [untyped_makeRequest_agrees] relates the two. *)
Class ErrorBody (J : Type) : Type := {
  field_message : J → option string;
  field_errors : J → option (list string)
}.

#[export] Instance ApiResponse_ErrorBody (T : Type) : ErrorBody (ApiResponse.t T) := {
  field_message := ApiResponse.message;
  field_errors := ApiResponse.errors
}.

(** ** Configuration ([config/app.config.ts], the part the client reads) *)

Module APP_CONFIG.
Record api_t : Type := mk_api { timeout : Z; retryAttempts : Z; retryDelay : Z }.

Definition api : api_t :=
  {| timeout := 30000; retryAttempts := 3; retryDelay := 1000 |}.
End APP_CONFIG.

(** ** Requests *)

(** [FormData]: the appended entries, in order. *)
Definition FormData : Type := list (string * string).

Inductive BodyInit : Type :=
  | BodyString (s : string)
  | BodyFormData (fd : FormData).

(** [RequestInit], the fields the client sets. *)
Module RequestInit.
Record t : Type := mk {
  method : option string;
  body : option BodyInit;
  headers : option (gmap string string)
}.
Definition empty : t := {| method := None; body := None; headers := None |}.
End RequestInit.

(** [interface RequestConfig extends RequestInit] *)
Module RequestConfig.
Record t : Type := mk {
  timeout : option Z;
  retries : option Z;
  init : RequestInit.t
}.
Definition empty : t :=
  {| timeout := None; retries := None; init := RequestInit.empty |}.
End RequestConfig.

(** ** The network, as one attempt sees it *)

Inductive JsonResult (J : Type) : Type :=
  | JsonRejects (e : JsError.t)     (* response.json() rejects: malformed body *)
  | JsonResolves (v : J).
Arguments JsonRejects {J} e.
Arguments JsonResolves {J} v.

Module Response.
Record t (J : Type) : Type := mk { status : Z; json : JsonResult J }.
Arguments mk {J} _ _.
Arguments status {J} _.
Arguments json {J} _.

(** [response.ok]: the status is in the range 200-299. *)
Definition ok {J : Type} (r : t J) : bool :=
  (200 <=? status r) && (status r <=? 299).
End Response.

(** The [DOMException] with which [fetch] rejects once [controller.abort()]
    has run. *)
Definition abort_error : JsError.t :=
  {| JsError.name := "AbortError";
     JsError.message := "signal is aborted without reason" |}.

(** The outcome of [await fetch(url, {...requestOptions, signal})] with the
    abort timer armed. *)
Inductive FetchOutcome (J : Type) : Type :=
  | NetworkFailure (e : JsError.t)   (* fetch rejects: no response *)
  | SignalFired                       (* the timer ran controller.abort() first *)
  | Responded (r : Response.t J).
Arguments NetworkFailure {J} e.
Arguments SignalFired {J}.
Arguments Responded {J} r.

(** What a call does to the outside, in order. *)
Inductive Event : Type :=
  | Fetch (url : string) (init : RequestInit.t) (abort_after : Z)
  | Delay (ms : Z).

(** The browser as the token functions see it. *)
Module Browser.
Record t : Type := mk {
  has_window : bool;                     (* typeof window !== 'undefined' *)
  localStorage : gmap string string
}.
End Browser.

(** ** [class ApiClient] *)

Module ApiClient.

Record t : Type := mk {
  baseUrl : string;
  defaultTimeout : Z;
  defaultRetries : Z
}.

(** [constructor()], with [env.apiUrl] of [getEnvironmentConfig()]. *)
Definition new (cfg : APP_CONFIG.api_t) (apiUrl : string) : t :=
  {| baseUrl := apiUrl;
     defaultTimeout := APP_CONFIG.timeout cfg;
     defaultRetries := APP_CONFIG.retryAttempts cfg |}.



(** [getAuthToken()]: both paths return [null]; the storage reads are
    comments. *)
Definition getAuthToken (b : Browser.t) : option string :=
  if negb (Browser.has_window b) then None else None.

(** [setAuthToken(token)]: both paths return without storing anything. *)
Definition setAuthToken (token : string) (b : Browser.t) : Browser.t :=
  if negb (Browser.has_window b) then b else b.

(** [removeAuthToken()] *)
Definition removeAuthToken (b : Browser.t) : Browser.t :=
  if negb (Browser.has_window b) then b else b.

(** Lines 96-105: the default headers, the caller's spread over them, and
    the authorization header when [token] is truthy. *)
Definition build_headers (token : option string)
    (config_headers : option (gmap string string)) : gmap string string :=
  let headers : gmap string string :=
    default ∅ config_headers ∪ {[ "Content-Type" := "application/json" ]} in
  match token with
  | Some tok =>
      if decide (tok = "") then headers
      else <[ "Authorization" := "Bearer " +:+ tok ]> headers
  | None => headers
  end.

(** Lines 107-110: [requestOptions]. *)
Definition requestOptions (b : Browser.t) (requestConfig : RequestInit.t)
    : RequestInit.t :=
  {| RequestInit.method := RequestInit.method requestConfig;
     RequestInit.body := RequestInit.body requestConfig;
     RequestInit.headers :=
       Some (build_headers (getAuthToken b) (RequestInit.headers requestConfig)) |}.

Section MakeRequest.
Context {J : Type} `{ErrorBody J}.
Variable cfg : APP_CONFIG.api_t.

(** Lines 115-135: the [try] block of one attempt, given what the
    network did. *)
Definition attempt_body (o : FetchOutcome J) : Completion J :=
  match o with
  | NetworkFailure e => Threw (ThrownJs e)
  | SignalFired => Threw (ThrownJs abort_error)
  | Responded response =>
      if negb (Response.ok response) then
        let errorData : option J :=       (* None is the object {} *)
          match Response.json response with
          | JsonRejects _ => None
          | JsonResolves v => Some v
          end in
        Threw (ThrownApi (ApiError.new
          (str_or (errorData ≫= field_message)
                  ("HTTP " +:+ pretty (Response.status response)))
          (Some (Response.status response))
          (Some (arr_or (errorData ≫= field_errors) []))))
      else
        match Response.json response with
        | JsonRejects e => Threw (ThrownJs e)
        | JsonResolves data => Returned data
        end
  end.

(** Lines 138-149: what the [catch] clause throws on the final attempt. *)
Definition final_error (error : Thrown) : Thrown :=
  match error with
  | ThrownApi e => ThrownApi e
  | ThrownJs e =>
      if decide (JsError.name e = "AbortError") then
        ThrownApi (ApiError.new "Request timeout" (Some 408) None)
      else
        ThrownApi (ApiError.new
          (str_or (Some (JsError.message e)) "Network error") (Some 0) None)
  end.

(** Lines 113-157: the [for] loop from [attempt] on and the [throw] after
    it. [fuel] bounds the number of iterations. *)
Fixpoint retry_loop (net : Z → FetchOutcome J) (url : string)
    (options : RequestInit.t) (timeout retries : Z)
    (fuel : nat) (attempt : Z) : option (list Event * Completion J) :=
  match fuel with
  | O => None
  | S fuel' =>
      if attempt <=? retries then
        match attempt_body (net attempt) with
        | Returned data => Some ([Fetch url options timeout], Returned data)
        | Threw error =>
            if attempt =? retries then
              Some ([Fetch url options timeout], Threw (final_error error))
            else
              '(tr, c) ← retry_loop net url options timeout retries
                            fuel' (attempt + 1);
              Some (Fetch url options timeout
                      :: Delay (APP_CONFIG.retryDelay cfg * (attempt + 1))
                      :: tr, c)
        end
      else
        Some ([], Threw (ThrownApi
                (ApiError.new "Max retries exceeded" (Some 0) None)))
  end.

(** The iterations [attempt = 0 .. retries] and the final test. *)
Definition loop_fuel (retries : Z) : nat := S (Z.to_nat (retries + 1)).

(** [private async makeRequest<T>(endpoint, config = {})] *)
Definition makeRequest (this : t) (b : Browser.t) (net : Z → FetchOutcome J)
    (endpoint : string) (config : RequestConfig.t)
    : option (list Event * Completion J) :=
  let timeout := default (defaultTimeout this) (RequestConfig.timeout config) in
  let retries := default (defaultRetries this) (RequestConfig.retries config) in
  let requestConfig := RequestConfig.init config in
  let url := baseUrl this +:+ endpoint in
  retry_loop net url (requestOptions b requestConfig) timeout retries
    (loop_fuel retries) 0.

End MakeRequest.

(** [{ method: m, body: b, ...config }]: the fields of [config] win. *)
Definition spread_config (method : string) (body : option BodyInit)
    (config : option RequestConfig.t) : RequestConfig.t :=
  match config with
  | None =>
      {| RequestConfig.timeout := None;
         RequestConfig.retries := None;
         RequestConfig.init :=
           {| RequestInit.method := Some method;
              RequestInit.body := body;
              RequestInit.headers := None |} |}
  | Some c =>
      let i := RequestConfig.init c in
      {| RequestConfig.timeout := RequestConfig.timeout c;
         RequestConfig.retries := RequestConfig.retries c;
         RequestConfig.init :=
           {| RequestInit.method :=
                Some (default method (RequestInit.method i));
              RequestInit.body :=
                match RequestInit.body i with
                | Some b => Some b
                | None => body
                end;
              RequestInit.headers := RequestInit.headers i |} |}
  end.

(** The [data?: any] of [post], [put] and [patch], for a payload that
    [JSON.stringify] turns into a text; a payload on which it throws or
    returns [undefined] is covered by [Untyped.send_json]. *)
Class Payload (P : Type) : Type := {
  truthy : P → bool;
  JSON_stringify : P → string
}.

(** [data ? JSON.stringify(data) : undefined] *)
Definition json_body {P : Type} `{Payload P} (data : option P) : option BodyInit :=
  match data with
  | Some d => if truthy d then Some (BodyString (JSON_stringify d)) else None
  | None => None
  end.

Section Verbs.
Context {J : Type} `{ErrorBody J} {P : Type} `{Payload P}.
Variable cfg : APP_CONFIG.api_t.
Variable this : t.
Variable b : Browser.t.
Variable net : Z → FetchOutcome J.

Definition get (endpoint : string) (config : option RequestConfig.t) :=
  makeRequest cfg this b net endpoint (spread_config "GET" None config).

Definition post (endpoint : string) (data : option P)
    (config : option RequestConfig.t) :=
  makeRequest cfg this b net endpoint
    (spread_config "POST" (json_body data) config).

Definition put (endpoint : string) (data : option P)
    (config : option RequestConfig.t) :=
  makeRequest cfg this b net endpoint
    (spread_config "PUT" (json_body data) config).

Definition patch (endpoint : string) (data : option P)
    (config : option RequestConfig.t) :=
  makeRequest cfg this b net endpoint
    (spread_config "PATCH" (json_body data) config).

Definition delete (endpoint : string) (config : option RequestConfig.t) :=
  makeRequest cfg this b net endpoint (spread_config "DELETE" None config).

(** [upload(endpoint, formData, config?)]: [headers] is taken out of
    [config], copied into a fresh object, and [rest] is spread last. *)
Definition upload_config (formData : FormData)
    (config : option RequestConfig.t) : RequestConfig.t :=
  let c := default RequestConfig.empty config in
  let headers := RequestInit.headers (RequestConfig.init c) in
  let rest := RequestConfig.init c in
  {| RequestConfig.timeout := RequestConfig.timeout c;
     RequestConfig.retries := RequestConfig.retries c;
     RequestConfig.init :=
       {| RequestInit.method :=
            Some (default "POST" (RequestInit.method rest));
          RequestInit.body :=
            match RequestInit.body rest with
            | Some bd => Some bd
            | None => Some (BodyFormData formData)
            end;
          RequestInit.headers := Some (default ∅ headers) |} |}.

Definition upload (endpoint : string) (formData : FormData)
    (config : option RequestConfig.t) :=
  makeRequest cfg this b net endpoint (upload_config formData config).

End Verbs.

End ApiClient.

(** ** [hooks.ts]: the generic hooks *)

(** [useApi]: the three [useState] cells. *)
Module UseApi.

Record state (T : Type) : Type := mk {
  data : option T;
  loading : bool;
  error : option string
}.
Arguments mk {T} _ _ _.
Arguments data {T} _.
Arguments loading {T} _.
Arguments error {T} _.

Section Hook.
Context {T : Type}.

(** The initial values of the cells. *)
Definition init : state T := {| data := None; loading := true; error := None |}.

Definition setData (v : option T) (s : state T) : state T :=
  {| data := v; loading := loading s; error := error s |}.
Definition setLoading (v : bool) (s : state T) : state T :=
  {| data := data s; loading := v; error := error s |}.
Definition setError (v : option string) (s : state T) : state T :=
  {| data := data s; loading := loading s; error := v |}.

(** [fetchData], given how [await apiCall()] completes. *)
Definition fetchData (apiCall : Completion (ApiResponse.t T))
    (s : state T) : state T :=
  let s := setLoading true s in
  let s := setError None s in
  let s :=
    match apiCall with
    | Returned response =>
        if ApiResponse.success response then
          setData (Some (ApiResponse.data response)) s
        else
          setError
            (Some (str_or (ApiResponse.message response)
                          "Unknown error occurred")) s
    | Threw (ThrownApi err) => setError (Some (ApiError.message err)) s
    | Threw (ThrownJs _) => setError (Some "Network error occurred") s
    end in
  setLoading false s.

End Hook.
End UseApi.

(** [interface PaginatedResponse<T>], as [usePaginatedApi] reads it: the
    producer is typed [Promise<any>] and [pagination?.has_next] allows the
    block to be missing. *)
Module PaginatedResponse.
Record pagination_t : Type := mk_pagination {
  current_page : Z;
  per_page : Z;
  total : Z;
  total_pages : Z;
  has_next : bool;
  has_prev : bool
}.

Record t (T : Type) : Type := mk {
  data : list T;
  message : option string;
  success : bool;
  errors : option (list string);
  pagination : option pagination_t
}.
Arguments mk {T} _ _ _ _ _.
Arguments data {T} _.
Arguments message {T} _.
Arguments success {T} _.
Arguments errors {T} _.
Arguments pagination {T} _.

(** [pagination?.has_next || false] *)
Definition has_next_or_false {T : Type} (response : t T) : bool :=
  match pagination response with
  | Some p => has_next p
  | None => false
  end.
End PaginatedResponse.

(** [usePaginatedApi]: the five [useState] cells, and the calls made to the
    producer so far, each with its arguments [(page, limit)]. *)
Module UsePaginatedApi.

Record state (T : Type) : Type := mk {
  data : list T;
  loading : bool;
  error : option string;
  page : Z;
  hasMore : bool;
  calls : list (Z * Z)
}.
Arguments mk {T} _ _ _ _ _ _.
Arguments data {T} _.
Arguments loading {T} _.
Arguments error {T} _.
Arguments page {T} _.
Arguments hasMore {T} _.
Arguments calls {T} _.

Section Hook.
Context {T : Type}.

(** The producer: what the call with these arguments completes with may
    depend on the calls made before it. *)
Variable apiCall : list (Z * Z) → Z → Z → Completion (PaginatedResponse.t T).
Variable limit : Z.

Definition init : state T :=
  {| data := []; loading := true; error := None; page := 1;
     hasMore := true; calls := [] |}.

Definition setData (f : list T → list T) (s : state T) : state T :=
  {| data := f (data s); loading := loading s; error := error s;
     page := page s; hasMore := hasMore s; calls := calls s |}.
Definition setLoading (v : bool) (s : state T) : state T :=
  {| data := data s; loading := v; error := error s;
     page := page s; hasMore := hasMore s; calls := calls s |}.
Definition setError (v : option string) (s : state T) : state T :=
  {| data := data s; loading := loading s; error := v;
     page := page s; hasMore := hasMore s; calls := calls s |}.
Definition setPage (v : Z) (s : state T) : state T :=
  {| data := data s; loading := loading s; error := error s;
     page := v; hasMore := hasMore s; calls := calls s |}.
Definition setHasMore (v : bool) (s : state T) : state T :=
  {| data := data s; loading := loading s; error := error s;
     page := page s; hasMore := v; calls := calls s |}.
Definition record_call (pageNum : Z) (s : state T) : state T :=
  {| data := data s; loading := loading s; error := error s;
     page := page s; hasMore := hasMore s;
     calls := calls s ++ [(pageNum, limit)] |}.

(** [fetchData(pageNum = 1, append = false)] *)
Definition fetchData (pageNum : Z) (append : bool) (s : state T) : state T :=
  let s := setLoading true s in
  let s := if negb append then setError None s else s in
  let outcome := apiCall (calls s) pageNum limit in
  let s := record_call pageNum s in
  let s :=
    match outcome with
    | Returned response =>
        if PaginatedResponse.success response then
          let newData := PaginatedResponse.data response in
          let s :=
            if append then setData (λ prev, prev ++ newData) s
            else setData (λ _, newData) s in
          let s := setHasMore (PaginatedResponse.has_next_or_false response) s in
          setPage pageNum s
        else
          setError
            (Some (str_or (PaginatedResponse.message response)
                          "Unknown error occurred")) s
    | Threw (ThrownApi err) => setError (Some (ApiError.message err)) s
    | Threw (ThrownJs _) => setError (Some "Network error occurred") s
    end in
  setLoading false s.

(** [loadMore()] *)
Definition loadMore (s : state T) : state T :=
  if hasMore s && negb (loading s) then fetchData (page s + 1) true s
  else s.

(** [refetch()] *)
Definition refetch (s : state T) : state T :=
  fetchData 1 false (setPage 1 s).

(** One run of the effect, on the initial cells: [fetchData(1, false)].
    With a producer that is the same function in every render this is the
    only run; when the effect runs again is in [PaginatedRenders]. *)
Definition mount : state T := fetchData 1 false init.

End Hook.
End UsePaginatedApi.

(** [useAuth]: the current-user cells of [useCurrentUser()], what the
    action did to the console and to the user service, and the browser
    storage in which a token would live. *)
Module UseAuth.

Inductive ServiceCall : Type :=
  | CallLogout               (* api.user.logout() *)
  | CallGetCurrentUser.      (* api.user.getCurrentUser(), by refetch() *)

Record world (User : Type) : Type := mk {
  user : UseApi.state User;
  console : list (string * Thrown);
  service_calls : list ServiceCall;
  browser : Browser.t
}.
Arguments mk {User} _ _ _ _.
Arguments user {User} _.
Arguments console {User} _.
Arguments service_calls {User} _.
Arguments browser {User} _.

Section Hook.
Context {User : Type}.

(** How the two service calls complete. *)
Variable api_user_logout : Completion (ApiResponse.t unit).
Variable api_user_getCurrentUser : Completion (ApiResponse.t User).

(** [refetch], the [fetchData] of [useCurrentUser()]. *)
Definition refetch (w : world User) : world User :=
  {| user := UseApi.fetchData api_user_getCurrentUser (user w);
     console := console w;
     service_calls := service_calls w ++ [CallGetCurrentUser];
     browser := browser w |}.

(** [logout]: the [try] block awaits the service call and then
    [refetch()]; the [catch] clause writes to the console. *)
Definition logout (w : world User) : world User * Completion unit :=
  let w1 :=
    {| user := user w; console := console w;
       service_calls := service_calls w ++ [CallLogout];
       browser := browser w |} in
  match api_user_logout with
  | Returned _ => (refetch w1, Returned tt)
  | Threw error =>
      ({| user := user w1;
          console := console w1 ++ [("Logout error:"%string, error)];
          service_calls := service_calls w1;
          browser := browser w1 |}, Returned tt)
  end.

End Hook.
End UseAuth.

(** [useMutation]: the three [useState] cells and the callbacks of
    [options] that a call invokes, in order. A callback that is supplied is
    taken to return normally. *)
Module UseMutation.

Record state (TData : Type) : Type := mk {
  data : option TData;
  loading : bool;
  error : option string
}.
Arguments mk {TData} _ _ _.
Arguments data {TData} _.
Arguments loading {TData} _.
Arguments error {TData} _.

(** [interface UseMutationOptions]: which of the callbacks are supplied. *)
Record UseMutationOptions : Type := mk_options {
  onSuccess : bool;
  onError : bool;
  onSettled : bool
}.

(** An invocation of a callback, with its argument. *)
Inductive Callback (TData : Type) : Type :=
  | OnSuccess (data : TData)
  | OnError (error : Thrown)
  | OnSettled.
Arguments OnSuccess {TData} data.
Arguments OnError {TData} error.
Arguments OnSettled {TData}.

Section Hook.
Context {TData : Type}.

Definition init : state TData :=
  {| data := None; loading := false; error := None |}.

Definition setData (v : option TData) (s : state TData) : state TData :=
  {| data := v; loading := loading s; error := error s |}.
Definition setLoading (v : bool) (s : state TData) : state TData :=
  {| data := data s; loading := v; error := error s |}.
Definition setError (v : option string) (s : state TData) : state TData :=
  {| data := data s; loading := loading s; error := v |}.

(** [options?.f?.(...)]: the call happens when [options] and [f] are
    there. *)
Definition invoke (options : option UseMutationOptions)
    (f : UseMutationOptions → bool)
    (call : Callback TData) : list (Callback TData) :=
  match options with
  | Some o => if f o then [call] else []
  | None => []
  end.

(** [new Error(errorMsg)] *)
Definition new_Error (errorMsg : string) : Thrown :=
  ThrownJs {| JsError.name := "Error"; JsError.message := errorMsg |}.

(** [mutate(variables)], given how [await mutationFn(variables)]
    completes. *)
Definition mutate (mutationFn : Completion (ApiResponse.t TData))
    (options : option UseMutationOptions) (s : state TData)
    : state TData * list (Callback TData) :=
  let s := setLoading true s in
  let s := setError None s in
  let '(s, called) :=
    match mutationFn with
    | Returned response =>
        if ApiResponse.success response then
          (setData (Some (ApiResponse.data response)) s,
           invoke options onSuccess (OnSuccess (ApiResponse.data response)))
        else
          let errorMsg := str_or (ApiResponse.message response) "Mutation failed" in
          (setError (Some errorMsg) s,
           invoke options onError (OnError (new_Error errorMsg)))
    | Threw err =>
        let errorMsg :=
          match err with
          | ThrownApi e => ApiError.message e
          | ThrownJs _ => "Network error occurred"
          end in
        (setError (Some errorMsg) s, invoke options onError (OnError err))
    end in
  (setLoading false s, called ++ invoke options onSettled OnSettled).

(** [reset()] *)
Definition reset (s : state TData) : state TData :=
  setLoading false (setError None (setData None s)).

End Hook.
End UseMutation.

(** [a || b] on a [string | null]. *)
Definition null_or (a b : option string) : option string :=
  match a with
  | Some s => if decide (s = "") then b else Some s
  | None => b
  end.

(** [useAuth], the [login] and [register] actions and the merged cells:
    the current-user cells, the cells of the two mutations, and the calls
    made to the user service. [loginMutation] and [registerMutation] are the
    objects that [useLogin()] and [useRegister()] returned in the render
    that created the action, so [loginMutation.data] after the [await] is
    still the value of that render: the value before the call. *)
Module UseAuthActions.

Inductive ServiceCall : Type :=
  | CallLogin                (* api.user.login(credentials) *)
  | CallRegister             (* api.user.register(userData) *)
  | CallGetCurrentUser.      (* api.user.getCurrentUser(), by refetch() *)

Record world (User Auth : Type) : Type := mk {
  user : UseApi.state User;
  loginMutation : UseMutation.state Auth;
  registerMutation : UseMutation.state Auth;
  service_calls : list ServiceCall
}.
Arguments mk {User Auth} _ _ _ _.
Arguments user {User Auth} _.
Arguments loginMutation {User Auth} _.
Arguments registerMutation {User Auth} _.
Arguments service_calls {User Auth} _.

Section Hook.
Context {User Auth : Type}.

Variable api_user_login : Completion (ApiResponse.t Auth).
Variable api_user_register : Completion (ApiResponse.t Auth).
Variable api_user_getCurrentUser : Completion (ApiResponse.t User).

(** The cells on the first render. *)
Definition init : world User Auth :=
  {| user := UseApi.init; loginMutation := UseMutation.init;
     registerMutation := UseMutation.init; service_calls := [] |}.

(** [refetch], the [fetchData] of [useCurrentUser()]. *)
Definition refetch (w : world User Auth) : world User Auth :=
  {| user := UseApi.fetchData api_user_getCurrentUser (user w);
     loginMutation := loginMutation w;
     registerMutation := registerMutation w;
     service_calls := service_calls w ++ [CallGetCurrentUser] |}.

(** [login(credentials)] *)
Definition login (w : world User Auth) : world User Auth :=
  let captured := UseMutation.data (loginMutation w) in
  let w1 :=
    {| user := user w;
       loginMutation := fst (UseMutation.mutate api_user_login None (loginMutation w));
       registerMutation := registerMutation w;
       service_calls := service_calls w ++ [CallLogin] |} in
  match captured with
  | Some _ => refetch w1
  | None => w1
  end.

(** [register(userData)] *)
Definition register (w : world User Auth) : world User Auth :=
  let captured := UseMutation.data (registerMutation w) in
  let w1 :=
    {| user := user w;
       loginMutation := loginMutation w;
       registerMutation :=
         fst (UseMutation.mutate api_user_register None (registerMutation w));
       service_calls := service_calls w ++ [CallRegister] |} in
  match captured with
  | Some _ => refetch w1
  | None => w1
  end.

(** The [loading] that [useAuth] returns. *)
Definition loading (w : world User Auth) : bool :=
  UseApi.loading (user w) || UseMutation.loading (loginMutation w)
  || UseMutation.loading (registerMutation w).

(** The [error] that [useAuth] returns. *)
Definition error (w : world User Auth) : option string :=
  null_or (null_or (UseApi.error (user w)) (UseMutation.error (loginMutation w)))
          (UseMutation.error (registerMutation w)).

End Hook.
End UseAuthActions.

(** ** [config/navigation.config.ts]: the lookup of the active item *)

Module Navigation.

(** [interface NavItem], without the [icon?: any] that the lookups do not
    read. *)
#[warnings="-register-all"] Inductive NavItem : Type := mkNavItem {
  id : string;
  label : string;
  href : string;
  description : option string;
  isExternal : option bool;
  children : option (list NavItem)
}.

Definition leaf (id label href : string) (description : option string) : NavItem :=
  {| id := id; label := label; href := href; description := description;
     isExternal := None; children := None |}.

Definition NAV_ITEMS : list NavItem :=
  [ leaf "home" "Home" "/" (Some "Go to homepage");
    leaf "about" "About" "/about" (Some "Learn more about us");
    leaf "projects" "Projects" "/projects" (Some "View our projects");
    leaf "contact" "Contact" "/contact" (Some "Get in touch") ].

Definition FOOTER_LINKS : list NavItem :=
  [ leaf "privacy" "Privacy Policy" "/privacy" None;
    leaf "terms" "Terms of Service" "/terms" None;
    leaf "help" "Help" "/help" None ].

(** The inner loop of [getActiveNavItem]: the first child with this
    [href]. *)
Fixpoint first_child (pathname : string) (cs : list NavItem) : option NavItem :=
  match cs with
  | [] => None
  | child :: cs' =>
      if bool_decide (href child = pathname) then Some child
      else first_child pathname cs'
  end.

(** The outer loop of [getActiveNavItem], over the items that are left. *)
Fixpoint getActiveNavItem_in (items : list NavItem) (pathname : string)
    : option NavItem :=
  match items with
  | [] => None
  | item :: rest =>
      if bool_decide (href item = pathname) then Some item
      else
        match children item with
        | Some cs =>
            match first_child pathname cs with
            | Some child => Some child
            | None => getActiveNavItem_in rest pathname
            end
        | None => getActiveNavItem_in rest pathname
        end
  end.

(** [getActiveNavItem(pathname)] *)
Definition getActiveNavItem (pathname : string) : option NavItem :=
  getActiveNavItem_in NAV_ITEMS pathname.

(** [isNavItemActive(item, pathname)] *)
Definition isNavItemActive (item : NavItem) (pathname : string) : bool :=
  if bool_decide (href item = pathname) then true
  else
    match children item with
    | Some cs => existsb (λ child, bool_decide (href child = pathname)) cs
    | None => false
    end.

End Navigation.

(** ** [services.ts]: the calls the hooks are given *)

Module Services.

(** [status ? `&status=${status}` : ''] *)
Definition statusParam (status : option string) : string :=
  match status with
  | Some s => if decide (s = "") then "" else "&status=" +:+ s
  | None => ""
  end.

(** [`${path}?page=${page}&limit=${limit}${statusParam}`] *)
Definition page_endpoint (path : string) (page limit : Z) (statusParam : string)
    : string :=
  path +:+ "?page=" +:+ pretty page +:+ "&limit=" +:+ pretty limit +:+ statusParam.

(** The [FormData] of [uploadMultipleFiles]: every file under
    [`files[${index}]`], then the folder. *)
Definition multiple_files_form (files : list string) (folder : string)
    : list (string * string) :=
  imap (λ index file, ("files[" +:+ pretty index +:+ "]", file)) files
    ++ [("folder", folder)].

Section Calls.
Context {J : Type} `{ErrorBody J}.
Variable cfg : APP_CONFIG.api_t.
Variable this : ApiClient.t.
Variable b : Browser.t.
Variable net : Z → FetchOutcome J.

(** [userService.getUsers(page = 1, limit = 10)] *)
Definition getUsers (page limit : option Z) :=
  ApiClient.get cfg this b net
    (page_endpoint "/users" (default 1 page) (default 10 limit) "") None.

(** [projectService.getProjects(page = 1, limit = 10, status?)] *)
Definition getProjects (page limit : option Z) (status : option string) :=
  ApiClient.get cfg this b net
    (page_endpoint "/projects" (default 1 page) (default 10 limit)
       (statusParam status)) None.

(** [contactService.getMessages(page = 1, limit = 10, status?)] *)
Definition getMessages (page limit : option Z) (status : option string) :=
  ApiClient.get cfg this b net
    (page_endpoint "/contact" (default 1 page) (default 10 limit)
       (statusParam status)) None.

(** [blogService.getPosts(page = 1, limit = 10, status?)] *)
Definition getPosts (page limit : option Z) (status : option string) :=
  ApiClient.get cfg this b net
    (page_endpoint "/blog/posts" (default 1 page) (default 10 limit)
       (statusParam status)) None.

(** [fileService.uploadFile(file, folder = 'uploads')] *)
Definition uploadFile (file : string) (folder : option string) :=
  ApiClient.upload cfg this b net "/files/upload"
    [("file", file); ("folder", default "uploads" folder)] None.

(** [fileService.uploadMultipleFiles(files, folder = 'uploads')] *)
Definition uploadMultipleFiles (files : list string) (folder : option string) :=
  ApiClient.upload cfg this b net "/files/upload-multiple"
    (multiple_files_form files (default "uploads" folder)) None.

End Calls.
End Services.

(** ** The decoded body as the source reads it

    [response.json()] resolves to a value of type [any]. The typed engine
    above reads it through [ErrorBody], at the types of the wire contract;
    the definitions below read it as the source does, whatever the backend
    sent. *)

(** A value that [JSON.parse] can produce. A number is kept as the text
    that JavaScript prints for it ([String(n)]), which is all the code
    observes of it: it is falsy exactly when that text is ["0"]. *)
#[warnings="-register-all"] Inductive Json : Type :=
  | JNull
  | JBool (b : bool)
  | JNum (text : string)
  | JStr (s : string)
  | JArr (items : list Json)
  | JObj (fields : gmap string Json).

(** [undefined] or a decoded value. *)
Inductive Value : Type :=
  | Undefined
  | Val (v : Json).

(** [v.key] for the keys the code reads ([message], [errors], [success],
    [data]), none of which a built-in prototype defines: reading a
    property of [null] throws a [TypeError] ([None]); an object gives its
    own property or [undefined]; every other value gives [undefined]. *)
Definition js_get (key : string) (v : Json) : option Value :=
  match v with
  | JNull => None
  | JObj fields =>
      match fields !! key with
      | Some x => Some (Val x)
      | None => Some Undefined
      end
  | _ => Some Undefined
  end.

(** [ToBoolean] *)
Definition js_truthy (v : Json) : bool :=
  match v with
  | JNull => false
  | JBool b => b
  | JNum text => negb (bool_decide (text = "0"))
  | JStr s => negb (bool_decide (s = ""))
  | JArr _ => true
  | JObj _ => true
  end.

Definition value_truthy (x : Value) : bool :=
  match x with
  | Undefined => false
  | Val v => js_truthy v
  end.

(** [ToString], as the [Error] constructor applies it to its message. An
    array is joined with commas, [null] elements giving the empty text. An
    object gives ["[object Object]"], unless it has a property [toString]
    of its own: a decoded value is never a function, so the conversion
    finds nothing to call but [Object.prototype.valueOf], which returns the
    object, and throws a [TypeError] ([None]). *)
Fixpoint js_to_string (v : Json) : option string :=
  match v with
  | JNull => Some "null"
  | JBool true => Some "true"
  | JBool false => Some "false"
  | JNum text => Some text
  | JStr s => Some s
  | JArr items =>
      (fix join (l : list Json) : option string :=
         match l with
         | [] => Some ""
         | x :: rest =>
             match match x with JNull => Some "" | _ => js_to_string x end,
                   join rest with
             | Some first, Some others =>
                 Some match rest with
                      | [] => first
                      | _ => first +:+ "," +:+ others
                      end
             | _, _ => None
             end
         end) items
  | JObj fields =>
      match fields !! "toString" with
      | Some _ => None
      | None => Some "[object Object]"
      end
  end.

(** What makes the code throw a [TypeError]: the read of a property of
    [null], or the conversion of an object to a text. *)
Inductive TypeErrorCause : Type :=
  | ReadOfNull (key : string)
  | ObjectToPrimitive.

(** The engine and the single-entity hook over undecoded bodies. *)
Module Untyped.

(** [class ApiError]: [errors] holds whatever the constructor was given. *)
Module ApiError.
Record t : Type := mk { message : string; status : Z; errors : Json }.

(** [constructor(message, status = 500, errors = [])] *)
Definition new (message : string) (status : option Z) (errors : option Json) : t :=
  {| message := message;
     status := default 500 status;
     errors := default (JArr []) errors |}.
End ApiError.

Inductive Thrown : Type :=
  | ThrownApi (e : ApiError.t)      (* error instanceof ApiError *)
  | ThrownJs (e : JsError.t).

Inductive Completion (A : Type) : Type :=
  | Returned (v : A)
  | Threw (t : Thrown).
Arguments Returned {A} v.
Arguments Threw {A} t.

(** What [JSON.stringify(data)] does: it throws (a cycle, a BigInt), or
    returns a text, or returns [undefined]. *)
Inductive Stringified : Type :=
  | StringifyThrows (e : JsError.t)
  | StringifyReturns (text : option string).

(** The [data?: any] of [post], [put] and [patch]. *)
Class Payload (P : Type) : Type := {
  truthy : P → bool;
  JSON_stringify : P → Stringified
}.

Section Engine.
Variable cfg : APP_CONFIG.api_t.

(** The message of a [TypeError]; its wording is the JavaScript
    engine's. *)
Variable type_error_text : TypeErrorCause → string.

Definition TypeError (cause : TypeErrorCause) : JsError.t :=
  {| JsError.name := "TypeError"; JsError.message := type_error_text cause |}.

(** Lines 115-135: the [try] block of one attempt. *)
Definition attempt_body (o : FetchOutcome Json) : Completion Json :=
  match o with
  | NetworkFailure e => Threw (ThrownJs e)
  | SignalFired => Threw (ThrownJs abort_error)
  | Responded response =>
      if negb (Response.ok response) then
        let errorData : Json :=
          match Response.json response with
          | JsonRejects _ => JObj ∅                  (* .catch(() => ({})) *)
          | JsonResolves v => v
          end in
        match js_get "message" errorData, js_get "errors" errorData with
        | Some message, Some errors =>
            (* [super(message)] converts the message to a text *)
            match
              match message with
              | Val m =>
                  if js_truthy m then js_to_string m
                  else Some ("HTTP " +:+ pretty (Response.status response))
              | Undefined =>
                  Some ("HTTP " +:+ pretty (Response.status response))
              end
            with
            | Some text =>
                Threw (ThrownApi (ApiError.new text
                  (Some (Response.status response))
                  (Some match errors with
                        | Val e => if js_truthy e then e else JArr []
                        | Undefined => JArr []
                        end)))
            | None => Threw (ThrownJs (TypeError ObjectToPrimitive))
            end
        | _, _ => Threw (ThrownJs (TypeError (ReadOfNull "message")))
        end
      else
        match Response.json response with
        | JsonRejects e => Threw (ThrownJs e)
        | JsonResolves data => Returned data
        end
  end.

(** Lines 138-149: what the [catch] clause throws on the final attempt. *)
Definition final_error (error : Thrown) : Thrown :=
  match error with
  | ThrownApi e => ThrownApi e
  | ThrownJs e =>
      if decide (JsError.name e = "AbortError") then
        ThrownApi (ApiError.new "Request timeout" (Some 408) None)
      else
        ThrownApi (ApiError.new
          (str_or (Some (JsError.message e)) "Network error") (Some 0) None)
  end.

(** Lines 113-157: the [for] loop from [attempt] on and the [throw] after
    it. [fuel] bounds the number of iterations. *)
Fixpoint retry_loop (net : Z → FetchOutcome Json) (url : string)
    (options : RequestInit.t) (timeout retries : Z)
    (fuel : nat) (attempt : Z) : option (list Event * Completion Json) :=
  match fuel with
  | O => None
  | S fuel' =>
      if attempt <=? retries then
        match attempt_body (net attempt) with
        | Returned data => Some ([Fetch url options timeout], Returned data)
        | Threw error =>
            if attempt =? retries then
              Some ([Fetch url options timeout], Threw (final_error error))
            else
              '(tr, c) ← retry_loop net url options timeout retries
                            fuel' (attempt + 1);
              Some (Fetch url options timeout
                      :: Delay (APP_CONFIG.retryDelay cfg * (attempt + 1))
                      :: tr, c)
        end
      else
        Some ([], Threw (ThrownApi
                (ApiError.new "Max retries exceeded" (Some 0) None)))
  end.

(** [private async makeRequest<T>(endpoint, config = {})] *)
Definition makeRequest (this : ApiClient.t) (b : Browser.t)
    (net : Z → FetchOutcome Json) (endpoint : string) (config : RequestConfig.t)
    : option (list Event * Completion Json) :=
  let timeout :=
    default (ApiClient.defaultTimeout this) (RequestConfig.timeout config) in
  let retries :=
    default (ApiClient.defaultRetries this) (RequestConfig.retries config) in
  let requestConfig := RequestConfig.init config in
  let url := ApiClient.baseUrl this +:+ endpoint in
  retry_loop net url (ApiClient.requestOptions b requestConfig) timeout retries
    (ApiClient.loop_fuel retries) 0.

(** [post], [put] and [patch]: the body
    [data ? JSON.stringify(data) : undefined] is computed in the argument
    of [makeRequest], before [makeRequest] is entered. *)
Definition send_json {P : Type} `{Payload P} (method : string)
    (this : ApiClient.t) (b : Browser.t) (net : Z → FetchOutcome Json)
    (endpoint : string) (data : option P) (config : option RequestConfig.t)
    : option (list Event * Completion Json) :=
  match data with
  | Some d =>
      if truthy d then
        match JSON_stringify d with
        | StringifyThrows e => Some ([], Threw (ThrownJs e))
        | StringifyReturns text =>
            makeRequest this b net endpoint
              (ApiClient.spread_config method (BodyString <$> text) config)
        end
      else
        makeRequest this b net endpoint
          (ApiClient.spread_config method None config)
  | None =>
      makeRequest this b net endpoint
        (ApiClient.spread_config method None config)
  end.

Definition post {P : Type} `{Payload P} := send_json (P := P) "POST".
Definition put {P : Type} `{Payload P} := send_json (P := P) "PUT".
Definition patch {P : Type} `{Payload P} := send_json (P := P) "PATCH".

End Engine.

(** [useApi] with a producer that resolves to an undecoded body: the cells
    hold [null], [undefined] or a decoded value. *)
Module UseApi.

Record state : Type := mk {
  data : Value;
  loading : bool;
  error : Value
}.

Definition init : state :=
  {| data := Val JNull; loading := true; error := Val JNull |}.

Definition setData (v : Value) (s : state) : state :=
  {| data := v; loading := loading s; error := error s |}.
Definition setLoading (v : bool) (s : state) : state :=
  {| data := data s; loading := v; error := error s |}.
Definition setError (v : Value) (s : state) : state :=
  {| data := data s; loading := loading s; error := v |}.

(** [fetchData], given how [await apiCall()] completes. Reading
    [response.success] of [null] throws inside the [try], and the
    [TypeError] is not an [ApiError]. *)
Definition fetchData (apiCall : Completion Json) (s : state) : state :=
  let s := setLoading true s in
  let s := setError (Val JNull) s in
  let s :=
    match apiCall with
    | Returned response =>
        match js_get "success" response, js_get "data" response,
              js_get "message" response with
        | Some success, Some data, Some message =>
            if value_truthy success then setData data s
            else
              setError
                (if value_truthy message then message
                 else Val (JStr "Unknown error occurred")) s
        | _, _, _ => setError (Val (JStr "Network error occurred")) s
        end
    | Threw (ThrownApi err) => setError (Val (JStr (ApiError.message err))) s
    | Threw (ThrownJs _) => setError (Val (JStr "Network error occurred")) s
    end in
  setLoading false s.

End UseApi.

End Untyped.

(** A body that honours the wire contract, as the untyped engine sees
    it: an object with the [message] and the [errors] that the typed view
    reads. *)
Definition as_json {J : Type} `{ErrorBody J} (v : J) : Json :=
  let fields : gmap string Json :=
    match field_message v with
    | Some m => {[ "message" := JStr m ]}
    | None => ∅
    end in
  JObj match field_errors v with
       | Some l => <[ "errors" := JArr (JStr <$> l) ]> fields
       | None => fields
       end.

Definition as_json_outcome {J : Type} `{ErrorBody J} (o : FetchOutcome J)
    : FetchOutcome Json :=
  match o with
  | NetworkFailure e => NetworkFailure e
  | SignalFired => SignalFired
  | Responded r =>
      Responded
        {| Response.status := Response.status r;
           Response.json :=
             match Response.json r with
             | JsonRejects e => JsonRejects e
             | JsonResolves v => JsonResolves (as_json v)
             end |}
  end.

(** The typed [ApiError] with its list of strings as a decoded array. *)
Definition as_untyped_error (e : ApiError.t) : Untyped.ApiError.t :=
  {| Untyped.ApiError.message := ApiError.message e;
     Untyped.ApiError.status := ApiError.status e;
     Untyped.ApiError.errors := JArr (JStr <$> ApiError.errors e) |}.

Definition as_untyped_completion {J : Type} `{ErrorBody J} (c : Completion J)
    : Untyped.Completion Json :=
  match c with
  | Returned data => Untyped.Returned (as_json data)
  | Threw (ThrownApi e) => Untyped.Threw (Untyped.ThrownApi (as_untyped_error e))
  | Threw (ThrownJs e) => Untyped.Threw (Untyped.ThrownJs e)
  end.

(** ** Observations on traces and outcomes *)

Section Observations.
Context {J : Type} `{ErrorBody J}.

(** The attempt ends in the [catch] clause. *)
Definition attempt_fails (o : FetchOutcome J) : bool :=
  match ApiClient.attempt_body o with
  | Threw _ => true
  | Returned _ => false
  end.

(** What the loop hands to the caller when the attempt with completion
    [c] is the one that ends it. *)
Definition settle (c : Completion J) : Completion J :=
  match c with
  | Returned data => Returned data
  | Threw error => Threw (ApiClient.final_error error)
  end.
End Observations.

(** The failed attempts [a, a+1, ..., a+n-1], each followed by its wait. *)
Definition backoff (unit : Z) (req : Event) (a n : Z) : list Event :=
  seqZ a n ≫= λ i, [req; Delay (unit * (i + 1))].

Definition is_fetch (ev : Event) : bool :=
  match ev with
  | Fetch _ _ _ => true
  | Delay _ => false
  end.

(** The number of network calls in a trace. *)
Definition fetch_count (tr : list Event) : nat := length (filter is_fetch tr).

(** The waits of a trace, in order. *)
Definition delays (tr : list Event) : list Z :=
  tr ≫= λ ev, match ev with Delay ms => [ms] | Fetch _ _ _ => [] end.

(** The options of the network calls of a trace, in order. *)
Definition issued (tr : list Event) : list RequestInit.t :=
  tr ≫= λ ev, match ev with Fetch _ init _ => [init] | Delay _ => [] end.

(** A fetch completes in the [catch] clause of the paginated hook or in its
    [else] branch. *)
Definition page_fetch_failed {T : Type}
    (c : Completion (PaginatedResponse.t T)) : bool :=
  match c with
  | Returned response => negb (PaginatedResponse.success response)
  | Threw _ => true
  end.

(** The events of a trace that are network calls. *)
Definition fetches (tr : list Event) : list Event := filter is_fetch tr.

(** The producer returned an envelope with [success = true]. *)
Definition succeeded {T : Type} (c : Completion (ApiResponse.t T)) : bool :=
  match c with
  | Returned response => ApiResponse.success response
  | Threw _ => false
  end.

(** What can happen to a paginated hook that is mounted: a call of
    [loadMore], a call of [refetch], or a run of the effect. *)
Inductive ListAction : Type :=
  | DoLoadMore
  | DoRefetch
  | DoEffect.

Definition list_step {T : Type}
    (apiCall : list (Z * Z) → Z → Z → Completion (PaginatedResponse.t T))
    (limit : Z) (s : UsePaginatedApi.state T) (a : ListAction)
    : UsePaginatedApi.state T :=
  match a with
  | DoLoadMore => UsePaginatedApi.loadMore apiCall limit s
  | DoRefetch => UsePaginatedApi.refetch apiCall limit s
  | DoEffect => UsePaginatedApi.fetchData apiCall limit 1 false s
  end.

(** The state after the given actions, each run to completion before the
    next, from the state [s]. *)
Definition list_run {T : Type}
    (apiCall : list (Z * Z) → Z → Z → Completion (PaginatedResponse.t T))
    (limit : Z) (actions : list ListAction) (s : UsePaginatedApi.state T)
    : UsePaginatedApi.state T :=
  foldl (list_step apiCall limit) s actions.

(** The state after [n] calls of [loadMore], each run to completion before
    the next, from the state [s]. *)
Definition loaded_more {T : Type}
    (apiCall : list (Z * Z) → Z → Z → Completion (PaginatedResponse.t T))
    (limit : Z) (n : nat) (s : UsePaginatedApi.state T)
    : UsePaginatedApi.state T :=
  Nat.iter n (UsePaginatedApi.loadMore apiCall limit) s.

(** The items of the [n] pages that follow page [p], in order. *)
Definition pages_after {T : Type} (pages : Z → PaginatedResponse.t T) (p n : Z)
    : list T :=
  seqZ (p + 1) n ≫= λ q, PaginatedResponse.data (pages q).

(** An item is a top-level item of [items] or a direct child of one. *)
Definition listed (items : list Navigation.NavItem) (it : Navigation.NavItem)
    : Prop :=
  it ∈ items ∨
  ∃ parent cs, parent ∈ items ∧ Navigation.children parent = Some cs ∧ it ∈ cs.

(** ** When the effect of the paginated hook runs again

    [fetchData] is [useCallback(..., [apiCall, limit, ...dependencies])]
    and the effect is [useEffect(() => { fetchData(1, false) },
    [fetchData])]: after a render the effect runs again exactly when
    [fetchData] is a new function, that is when [apiCall], [limit] or a
    dependency is not the one of the render before. [limit] and the
    dependencies are taken to stay as they are. *)
Module PaginatedRenders.

(** The producer a caller passes: the same function in every render (a
    function defined outside the component, or one kept by [useCallback]),
    or a function written in the call, which is a new one in every
    render. *)
Inductive ProducerIdentity : Type :=
  | SameFunction
  | NewFunctionEachRender.

(** [useUsers], [useProjects], [useContactMessages] and [useBlogPosts]
    pass an arrow function written in their call of [usePaginatedApi]. *)
Definition useUsers : ProducerIdentity := NewFunctionEachRender.
Definition useProjects : ProducerIdentity := NewFunctionEachRender.
Definition useContactMessages : ProducerIdentity := NewFunctionEachRender.
Definition useBlogPosts : ProducerIdentity := NewFunctionEachRender.

Section Renders.
Context {T : Type}.
Variable apiCall : list (Z * Z) → Z → Z → Completion (PaginatedResponse.t T).
Variable limit : Z.

(** What the effect does after a render that is not the first. *)
Definition effect_after_render (identity : ProducerIdentity)
    (s : UsePaginatedApi.state T) : UsePaginatedApi.state T :=
  match identity with
  | SameFunction => s
  | NewFunctionEachRender => UsePaginatedApi.fetchData apiCall limit 1 false s
  end.

(** A fetch sets cells, which renders the component again, so the effect
    is looked at again: the state after [rounds] such renders, each fetch
    run to completion before the next. *)
Definition after_renders (identity : ProducerIdentity) (rounds : nat)
    (s : UsePaginatedApi.state T) : UsePaginatedApi.state T :=
  Nat.iter rounds (effect_after_render identity) s.

(** The mount, then twice a call of [loadMore], each followed by the
    renders it causes. *)
Definition two_loadMores (identity : ProducerIdentity) (r0 r1 r2 : nat)
    : UsePaginatedApi.state T :=
  after_renders identity r2
    (UsePaginatedApi.loadMore apiCall limit
       (after_renders identity r1
          (UsePaginatedApi.loadMore apiCall limit
             (after_renders identity r0 (UsePaginatedApi.mount apiCall limit))))).

End Renders.
End PaginatedRenders.

(** Observations on the untyped engine. *)
Definition untyped_attempt_fails (type_error_text : TypeErrorCause → string)
    (o : FetchOutcome Json) : bool :=
  match Untyped.attempt_body type_error_text o with
  | Untyped.Threw _ => true
  | Untyped.Returned _ => false
  end.

Definition untyped_settle (c : Untyped.Completion Json) : Untyped.Completion Json :=
  match c with
  | Untyped.Returned data => Untyped.Returned data
  | Untyped.Threw error => Untyped.Threw (Untyped.final_error error)
  end.



(** ** Sample inputs *)

Definition sample_client : ApiClient.t :=
  ApiClient.new APP_CONFIG.api "http://localhost:3001/api".

Definition sample_browser : Browser.t :=
  {| Browser.has_window := true; Browser.localStorage := ∅ |}.

Definition sample_envelope : ApiResponse.t (list string) :=
  {| ApiResponse.data := ["ada"; "grace"];
     ApiResponse.message := None;
     ApiResponse.success := true;
     ApiResponse.errors := None |}.

(** A 2xx response whose envelope reports an application-level failure. *)
Definition soft_failure_envelope : ApiResponse.t (list string) :=
  {| ApiResponse.data := [];
     ApiResponse.message := Some "Quota exceeded";
     ApiResponse.success := false;
     ApiResponse.errors := None |}.

(** The same with a message that is present and empty. *)
Definition empty_message_envelope : ApiResponse.t (list string) :=
  {| ApiResponse.data := [];
     ApiResponse.message := Some "";
     ApiResponse.success := false;
     ApiResponse.errors := None |}.

(** A backend that answers every attempt with 200 and [sample_envelope]. *)
Definition healthy_net : Z → FetchOutcome (ApiResponse.t (list string)) :=
  λ _, Responded {| Response.status := 200;
                    Response.json := JsonResolves sample_envelope |}.

(** A backend that answers every attempt with 503 and no decodable body. *)
Definition failing_net : Z → FetchOutcome (ApiResponse.t (list string)) :=
  λ _, Responded
         {| Response.status := 503;
            Response.json :=
              JsonRejects {| JsError.name := "SyntaxError";
                             JsError.message := "Unexpected end of JSON input" |} |}.

(** A backend that never answers in time. *)
Definition silent_net : Z → FetchOutcome (ApiResponse.t (list string)) :=
  λ _, SignalFired.

(** A backend that fails twice with 500 and then answers 200 with the
    soft failure. *)
Definition recovering_net : Z → FetchOutcome (ApiResponse.t (list string)) :=
  λ attempt,
    if attempt <? 2 then
      Responded {| Response.status := 500;
                   Response.json := JsonResolves soft_failure_envelope |}
    else
      Responded {| Response.status := 200;
                   Response.json := JsonResolves soft_failure_envelope |}.

Definition sample_form : FormData := [("file", "avatar.png"); ("folder", "uploads")].

(** The items of the three pages of a small listing. *)
Definition sample_page (pageNum : Z) : list string :=
  if pageNum =? 1 then ["p1"; "p2"]
  else if pageNum =? 2 then ["p3"; "p4"]
  else if pageNum =? 3 then ["p5"]
  else [].

Definition sample_page_envelope (pageNum limit : Z) : PaginatedResponse.t string :=
  {| PaginatedResponse.data := sample_page pageNum;
     PaginatedResponse.message := None;
     PaginatedResponse.success := true;
     PaginatedResponse.errors := None;
     PaginatedResponse.pagination :=
       Some {| PaginatedResponse.current_page := pageNum;
               PaginatedResponse.per_page := limit;
               PaginatedResponse.total := 5;
               PaginatedResponse.total_pages := 3;
               PaginatedResponse.has_next := pageNum <? 3;
               PaginatedResponse.has_prev := 1 <? pageNum |} |}.

(** A producer that serves the listing. *)
Definition sample_producer
    : list (Z * Z) → Z → Z → Completion (PaginatedResponse.t string) :=
  λ _ pageNum limit, Returned (sample_page_envelope pageNum limit).

(** A producer whose second call is rejected with a 503. *)
Definition flaky_producer
    : list (Z * Z) → Z → Z → Completion (PaginatedResponse.t string) :=
  λ history pageNum limit,
    if decide (length history = 1%nat) then
      Threw (ThrownApi (ApiError.new "Service unavailable" (Some 503) None))
    else Returned (sample_page_envelope pageNum limit).

(** A world in which a user is loaded and a token sits in the storage. *)
Definition signed_in_world : UseAuth.world string :=
  {| UseAuth.user :=
       {| UseApi.data := Some "ada"; UseApi.loading := false;
          UseApi.error := None |};
     UseAuth.console := [];
     UseAuth.service_calls := [];
     UseAuth.browser :=
       {| Browser.has_window := true;
          Browser.localStorage := {[ "auth_token" := "abc" ]} |} |}.

Definition logout_rejected : Completion (ApiResponse.t unit) :=
  Threw (ThrownApi (ApiError.new "Network error" (Some 0) None)).

Definition current_user_unauthorized : Completion (ApiResponse.t string) :=
  Threw (ThrownApi (ApiError.new "HTTP 401" (Some 401) (Some []))).

(** The options with which a plain [get] is issued. *)
Definition sample_get_init : RequestInit.t :=
  {| RequestInit.method := Some "GET";
     RequestInit.body := None;
     RequestInit.headers := Some {[ "Content-Type" := "application/json" ]} |}.

(** The listing after the mount and two calls of [loadMore]. *)
Definition listing_exhausted : UsePaginatedApi.state string :=
  UsePaginatedApi.loadMore sample_producer 10
    (UsePaginatedApi.loadMore sample_producer 10
       (UsePaginatedApi.mount sample_producer 10)).

(** The signed-in world after a [logout] whose network call is rejected. *)
Definition after_rejected_logout : UseAuth.world string :=
  fst (UseAuth.logout logout_rejected current_user_unauthorized signed_in_world).

(** A page envelope without the pagination block. *)
Definition unpaged_envelope : PaginatedResponse.t string :=
  {| PaginatedResponse.data := ["p1"; "p2"];
     PaginatedResponse.message := None;
     PaginatedResponse.success := true;
     PaginatedResponse.errors := None;
     PaginatedResponse.pagination := None |}.

Definition unpaged_producer
    : list (Z * Z) → Z → Z → Completion (PaginatedResponse.t string) :=
  λ _ _ _, Returned unpaged_envelope.

(** A producer whose third call, and only that one, is rejected. *)
Definition third_call_fails
    : list (Z * Z) → Z → Z → Completion (PaginatedResponse.t string) :=
  λ history pageNum limit,
    if decide (length history = 2%nat) then
      Threw (ThrownApi (ApiError.new "Service unavailable" (Some 503) None))
    else Returned (sample_page_envelope pageNum limit).

(** A backend whose final answer is a 404 with a decodable body. *)
Definition not_found_net : Z → FetchOutcome (ApiResponse.t (list string)) :=
  λ _, Responded
         {| Response.status := 404;
            Response.json :=
              JsonResolves
                {| ApiResponse.data := [];
                   ApiResponse.message := Some "No such user";
                   ApiResponse.success := false;
                   ApiResponse.errors := Some ["id: unknown"] |} |}.

(** A backend that cannot be reached. *)
Definition unreachable_net : Z → FetchOutcome (ApiResponse.t (list string)) :=
  λ _, NetworkFailure {| JsError.name := "TypeError";
                         JsError.message := "Failed to fetch" |}.

(** A backend that answers 200 with a body that is not JSON. *)
Definition garbled_net : Z → FetchOutcome (ApiResponse.t (list string)) :=
  λ _, Responded
         {| Response.status := 200;
            Response.json :=
              JsonRejects {| JsError.name := "SyntaxError";
                             JsError.message := "Unexpected token <" |} |}.

Definition no_retries : RequestConfig.t :=
  {| RequestConfig.timeout := None; RequestConfig.retries := Some (-1);
     RequestConfig.init := RequestInit.empty |}.

(** A configuration with headers of the caller's own. *)
Definition custom_headers_config : RequestConfig.t :=
  {| RequestConfig.timeout := Some 5000; RequestConfig.retries := Some 0;
     RequestConfig.init :=
       {| RequestInit.method := Some "PUT";
          RequestInit.body := Some (BodyString "raw");
          RequestInit.headers :=
            Some {[ "Content-Type" := "text/plain"; "X-Trace" := "1" ]} |} |}.

Definition email_taken : Completion (ApiResponse.t string) :=
  Threw (ThrownApi (ApiError.new "Email taken" (Some 409)
                      (Some ["email already in use"]))).

Definition login_accepted : Completion (ApiResponse.t string) :=
  Returned {| ApiResponse.data := "token-1"; ApiResponse.message := None;
              ApiResponse.success := true; ApiResponse.errors := None |}.

Definition current_user_ada : Completion (ApiResponse.t string) :=
  Returned {| ApiResponse.data := "ada"; ApiResponse.message := None;
              ApiResponse.success := true; ApiResponse.errors := None |}.

Definition all_callbacks : UseMutation.UseMutationOptions :=
  {| UseMutation.onSuccess := true; UseMutation.onError := true;
     UseMutation.onSettled := true |}.

(** A navigation with a nested entry, as in the commented example of the
    configuration. *)
Definition nested_items : list Navigation.NavItem :=
  [ Navigation.leaf "home" "Home" "/" None;
    {| Navigation.id := "resources"; Navigation.label := "Resources";
       Navigation.href := "/resources";
       Navigation.description := Some "Helpful resources";
       Navigation.isExternal := None;
       Navigation.children :=
         Some [ Navigation.leaf "docs" "Documentation" "/resources/docs" None;
                Navigation.leaf "guides" "Guides" "/resources/guides" None ] |} ].

(** The listing after the mount and a [loadMore] that was rejected. *)
Definition listing_after_rejection : UsePaginatedApi.state string :=
  UsePaginatedApi.loadMore flaky_producer 10
    (UsePaginatedApi.mount flaky_producer 10).

(** Two pages loaded, before the call that will be rejected. *)
Definition two_pages_loaded : UsePaginatedApi.state string :=
  UsePaginatedApi.loadMore third_call_fails 10
    (UsePaginatedApi.mount third_call_fails 10).

Definition resources_item : Navigation.NavItem :=
  {| Navigation.id := "resources"; Navigation.label := "Resources";
     Navigation.href := "/resources";
     Navigation.description := Some "Helpful resources";
     Navigation.isExternal := None;
     Navigation.children :=
       Some [ Navigation.leaf "docs" "Documentation" "/resources/docs" None;
              Navigation.leaf "guides" "Guides" "/resources/guides" None ] |}.

(** The wording of V8 for a property read of [null]. *)
Definition v8_type_error_text (cause : TypeErrorCause) : string :=
  match cause with
  | ReadOfNull key => "Cannot read properties of null (reading '" +:+ key +:+ "')"
  | ObjectToPrimitive => "Cannot convert object to primitive value"
  end.


(** A backend that answers every attempt with 500 and the body [null]. *)
Definition null_error_net : Z → FetchOutcome Json :=
  λ _, Responded {| Response.status := 500; Response.json := JsonResolves JNull |}.

(** A backend that answers every attempt with 400 and a body whose
    [message] is an object with a [toString] entry. *)
Definition unconvertible_message_net : Z → FetchOutcome Json :=
  λ _, Responded
         {| Response.status := 400;
            Response.json :=
              JsonResolves
                (JObj {[ "message" := JObj {[ "toString" := JNum "1" ]} ]}) |}.

(** A backend that answers every attempt with 200 and the body [null]. *)
Definition null_body_net : Z → FetchOutcome Json :=
  λ _, Responded {| Response.status := 200; Response.json := JsonResolves JNull |}.

(** A payload that serialises, and one with a reference to itself. *)
Inductive SamplePayload : Type :=
  | PlainPayload (text : string)
  | CyclicPayload.

#[export] Instance SamplePayload_Payload : Untyped.Payload SamplePayload := {
  Untyped.truthy := λ _, true;
  Untyped.JSON_stringify := λ d,
    match d with
    | PlainPayload text => Untyped.StringifyReturns (Some text)
    | CyclicPayload =>
        Untyped.StringifyThrows
          {| JsError.name := "TypeError";
             JsError.message := "Converting circular structure to JSON" |}
    end
}.

(** A producer whose first call is rejected. *)
Definition first_call_fails
    : list (Z * Z) → Z → Z → Completion (PaginatedResponse.t string) :=
  λ history pageNum limit,
    if decide (length history = 0%nat) then
      Threw (ThrownApi (ApiError.new "Service unavailable" (Some 503) None))
    else Returned (sample_page_envelope pageNum limit).

(** The cells after the first fetch of the effect was rejected. *)
Definition listing_never_loaded : UsePaginatedApi.state string :=
  UsePaginatedApi.fetchData first_call_fails 10 1 false UsePaginatedApi.init.

(** The first page listed, by a producer that is asked for the first
    time. *)
Definition first_page_listed : UsePaginatedApi.state string :=
  {| UsePaginatedApi.data := ["p1"; "p2"];
     UsePaginatedApi.loading := false;
     UsePaginatedApi.error := None;
     UsePaginatedApi.page := 1;
     UsePaginatedApi.hasMore := true;
     UsePaginatedApi.calls := [(1, 10)] |}.

(** * Properties *)

(** ** The retry loop *)

Section RetryLoop.
Context {J : Type} `{ErrorBody J}.
Variable cfg : APP_CONFIG.api_t.
Variable net : Z → FetchOutcome J.
Variable url : string.
Variable options : RequestInit.t.
Variables timeout retries : Z.

Local Abbreviation loop := (ApiClient.retry_loop cfg net url options timeout retries).
Local Abbreviation req := (Fetch url options timeout).
Local Abbreviation unit := (APP_CONFIG.retryDelay cfg).

(** The loop ends: fuel beyond the number of remaining iterations is
    never used up. *)
Lemma retry_loop_total (fuel : nat) (attempt : Z) :
  (Z.to_nat (retries + 1 - attempt) < fuel)%nat →
  is_Some (loop fuel attempt).
Proof.
  revert attempt. induction fuel as [|fuel IH]; intros a Hfuel; [lia|].
  simpl. destruct (Z.leb_spec a retries) as [Hle|Hgt]; [|done].
  destruct (ApiClient.attempt_body (net a)) as [data|error]; [done|].
  destruct (Z.eqb_spec a retries) as [->|Hne]; [done|].
  destruct (IH (a + 1)) as [[tr c] ->]; [lia|done].
Qed.

(** Whatever the network does, the loop never lets a non-[ApiError]
    escape. *)
Lemma retry_loop_normalized (fuel : nat) (attempt : Z) tr c :
  loop fuel attempt = Some (tr, c) →
  (∃ data, c = Returned data) ∨ (∃ e, c = Threw (ThrownApi e)).
Proof.
  revert attempt tr c. induction fuel as [|fuel IH]; intros a tr c; [done|].
  simpl. destruct (Z.leb_spec a retries) as [Hle|Hgt].
  - destruct (ApiClient.attempt_body (net a)) as [data|error].
    + intros [= <- <-]. eauto.
    + destruct (Z.eqb_spec a retries) as [->|Hne].
      * intros [= <- <-]. right.
        destruct error as [e|e]; simpl; [eauto|].
        case_decide; eauto.
      * destruct (loop fuel (a + 1)) as [[tr' c']|] eqn:Hrec; [|done].
        simpl. intros [= <- <-]. eauto.
  - intros [= <- <-]. eauto.
Qed.

(** Attempts [a .. k-1] fail and attempt [k] ends the loop, by returning
    or by being the final one. *)
Lemma retry_loop_settles (fuel : nat) (a k : Z) :
  a ≤ k ≤ retries →
  (∀ i, a ≤ i < k → attempt_fails (net i) = true) →
  attempt_fails (net k) = false ∨ k = retries →
  (Z.to_nat (k - a) < fuel)%nat →
  loop fuel a
  = Some (backoff unit req a (k - a) ++ [req],
          settle (ApiClient.attempt_body (net k))).
Proof.
  revert a. induction fuel as [|fuel IH]; intros a Hak Hfail Hend Hfuel; [lia|].
  simpl. destruct (Z.leb_spec a retries) as [_|?]; [|lia].
  destruct (decide (a = k)) as [->|Hne].
  - replace (k - k) with 0 by lia. unfold backoff. simpl.
    unfold attempt_fails in Hend.
    destruct (ApiClient.attempt_body (net k)) as [data|error]; [done|].
    destruct Hend as [?| ->]; [done|]. by rewrite Z.eqb_refl.
  - pose proof (Hfail a ltac:(lia)) as Ha. unfold attempt_fails in Ha.
    destruct (ApiClient.attempt_body (net a)) as [data|error]; [done|].
    destruct (Z.eqb_spec a retries) as [?|_]; [lia|].
    rewrite (IH (a + 1)); [|lia|intros; apply Hfail; lia|done|lia].
    simpl. unfold backoff.
    rewrite (seqZ_cons a (k - a)) by lia. simpl.
    by replace (Z.pred (k - a)) with (k - (a + 1)) by lia.
Qed.

Lemma fetch_count_backoff (a n : Z) :
  0 ≤ n → fetch_count (backoff unit req a n) = Z.to_nat n.
Proof.
  intros Hn. rewrite <- (Z2Nat.id n) by done.
  rewrite Nat2Z.id. revert a.
  induction (Z.to_nat n) as [|m IH]; intros a; [done|].
  unfold backoff. rewrite seqZ_cons by lia. simpl.
  replace (Z.pred (Z.of_nat (S m))) with (Z.of_nat m) by lia.
  unfold fetch_count. simpl. f_equal. apply IH.
Qed.

Lemma delays_backoff (a n : Z) :
  delays (backoff unit req a n) = (λ i, unit * (i + 1)) <$> seqZ a n.
Proof.
  destruct (decide (0 ≤ n)) as [Hn|Hn].
  - rewrite <- (Z2Nat.id n) by done. revert a.
    induction (Z.to_nat n) as [|m IH]; intros a; [done|].
    unfold backoff. rewrite seqZ_cons by lia. simpl.
    replace (Z.pred (Z.of_nat (S m))) with (Z.of_nat m) by lia.
    f_equal. apply IH.
  - unfold backoff. by rewrite seqZ_nil by lia.
Qed.

Lemma issued_backoff (a n : Z) :
  Forall (λ init, init = options) (issued (backoff unit req a n)).
Proof.
  destruct (decide (0 ≤ n)) as [Hn|Hn].
  - rewrite <- (Z2Nat.id n) by done. revert a.
    induction (Z.to_nat n) as [|m IH]; intros a; [by constructor|].
    unfold backoff. rewrite seqZ_cons by lia. simpl.
    replace (Z.pred (Z.of_nat (S m))) with (Z.of_nat m) by lia.
    constructor; [done|]. apply IH.
  - unfold backoff. rewrite seqZ_nil by lia. by constructor.
Qed.

(** Every network call of the loop carries the same options. *)
Lemma retry_loop_issued (fuel : nat) (attempt : Z) tr c :
  loop fuel attempt = Some (tr, c) →
  Forall (λ init, init = options) (issued tr).
Proof.
  revert attempt tr c. induction fuel as [|fuel IH]; intros a tr c; [done|].
  simpl. destruct (Z.leb_spec a retries) as [Hle|Hgt].
  - destruct (ApiClient.attempt_body (net a)) as [data|error].
    + intros [= <- <-]. by repeat constructor.
    + destruct (Z.eqb_spec a retries) as [->|Hne].
      * intros [= <- <-]. by repeat constructor.
      * destruct (loop fuel (a + 1)) as [[tr' c']|] eqn:Hrec; [|done].
        simpl. intros [= <- <-]. constructor; [done|]. by eapply IH.
  - intros [= <- <-]. constructor.
Qed.

(** When the loop is entered at all, its trace starts with a network
    call. *)
Lemma retry_loop_head (fuel : nat) (attempt : Z) :
  attempt ≤ retries →
  (Z.to_nat (retries + 1 - attempt) < fuel)%nat →
  ∃ tr c, loop fuel attempt = Some (req :: tr, c).
Proof.
  intros Hle Hfuel. destruct fuel as [|fuel]; [lia|].
  simpl. destruct (Z.leb_spec attempt retries) as [_|?]; [|lia].
  destruct (ApiClient.attempt_body (net attempt)) as [data|error]; [eauto|].
  destruct (Z.eqb_spec attempt retries) as [->|Hne]; [eauto|].
  destruct (retry_loop_total fuel (attempt + 1)) as [[tr c] ->]; [lia|].
  simpl. eauto.
Qed.

End RetryLoop.

(** ** What each failure cause becomes on the final attempt *)

Section FailureCauses.
Context {J : Type} `{ErrorBody J}.

(** No response: status 0 and the message of the underlying error. *)
Lemma cause_network_failure (e : JsError.t) :
  JsError.name e ≠ "AbortError" →
  settle (J := J) (ApiClient.attempt_body (NetworkFailure e))
  = Threw (ThrownApi
      {| ApiError.message := str_or (Some (JsError.message e)) "Network error";
         ApiError.status := 0;
         ApiError.errors := [] |}).
Proof. intros Hname. simpl. by case_decide. Qed.

(** The abort timer fired: status 408. *)
Lemma cause_timeout :
  settle (J := J) (ApiClient.attempt_body SignalFired)
  = Threw (ThrownApi
      {| ApiError.message := "Request timeout";
         ApiError.status := 408;
         ApiError.errors := [] |}).
Proof. reflexivity. Qed.

(** A status outside 200-299: the status, with the message and the errors
    of the body when it decodes and has them. *)
Lemma cause_http_status (st : Z) (body : JsonResult J) :
  ¬ (200 ≤ st ≤ 299) →
  settle (ApiClient.attempt_body
            (Responded {| Response.status := st; Response.json := body |}))
  = Threw (ThrownApi
      {| ApiError.message :=
           str_or (match body with
                   | JsonRejects _ => None
                   | JsonResolves v => field_message v
                   end) ("HTTP " +:+ pretty st);
         ApiError.status := st;
         ApiError.errors :=
           arr_or (match body with
                   | JsonRejects _ => None
                   | JsonResolves v => field_errors v
                   end) [] |}).
Proof.
  intros Hst. unfold ApiClient.attempt_body, Response.ok. simpl.
  destruct (Z.leb_spec 200 st), (Z.leb_spec st 299); try lia;
    by destruct body.
Qed.

(** A 2xx response whose body does not decode: status 0 and the message of
    the decoding error. *)
Lemma cause_malformed_body (st : Z) (e : JsError.t) :
  200 ≤ st ≤ 299 →
  JsError.name e ≠ "AbortError" →
  settle (J := J) (ApiClient.attempt_body
            (Responded {| Response.status := st; Response.json := JsonRejects e |}))
  = Threw (ThrownApi
      {| ApiError.message := str_or (Some (JsError.message e)) "Network error";
         ApiError.status := 0;
         ApiError.errors := [] |}).
Proof.
  intros Hst Hname. unfold ApiClient.attempt_body, Response.ok. simpl.
  destruct (Z.leb_spec 200 st), (Z.leb_spec st 299); try lia.
  simpl. by case_decide.
Qed.

End FailureCauses.

(** ** The request engine *)

Section RequestEngine.
Context {J : Type} `{ErrorBody J}.
Variable cfg : APP_CONFIG.api_t.
Variable this : ApiClient.t.
Variable b : Browser.t.
Variable net : Z → FetchOutcome J.
Variable endpoint : string.
Variable config : RequestConfig.t.

Local Abbreviation retries :=
  (default (ApiClient.defaultRetries this) (RequestConfig.retries config)).
Local Abbreviation req :=
  (Fetch (ApiClient.baseUrl this +:+ endpoint)
         (ApiClient.requestOptions b (RequestConfig.init config))
         (default (ApiClient.defaultTimeout this) (RequestConfig.timeout config))).

(** [makeRequest] always completes. *)
Lemma makeRequest_total :
  is_Some (ApiClient.makeRequest cfg this b net endpoint config).
Proof.
  unfold ApiClient.makeRequest, ApiClient.loop_fuel.
  apply retry_loop_total. lia.
Qed.

(** The call is settled by attempt [k]: the attempts before it fail, and
    it returns or is the final one. *)
Lemma makeRequest_settles (k : Z) :
  0 ≤ k ≤ retries →
  (∀ i, 0 ≤ i < k → attempt_fails (net i) = true) →
  attempt_fails (net k) = false ∨ k = retries →
  ApiClient.makeRequest cfg this b net endpoint config
  = Some (backoff (APP_CONFIG.retryDelay cfg) req 0 k ++ [req],
          settle (ApiClient.attempt_body (net k))).
Proof.
  intros Hk Hfail Hend.
  unfold ApiClient.makeRequest, ApiClient.loop_fuel.
  rewrite (retry_loop_settles _ _ _ _ _ _ _ 0 k); [|lia|done|done|lia].
  by rewrite Z.sub_0_r.
Qed.

(** C1. With [retries = N >= 0] and every attempt failing, the call throws
    an [ApiError] after exactly [N + 1] network calls; the trace is attempt
    0, a wait of [retryDelay * 1], attempt 1, a wait of [retryDelay * 2],
    ..., a wait of [retryDelay * N], attempt [N]. *)
Theorem retry_exhaustion (N : Z) :
  retries = N →
  0 ≤ N →
  (∀ a, 0 ≤ a ≤ N → attempt_fails (net a) = true) →
  ∃ tr e,
    ApiClient.makeRequest cfg this b net endpoint config
      = Some (tr, Threw (ThrownApi e)) ∧
    tr = backoff (APP_CONFIG.retryDelay cfg) req 0 N ++ [req] ∧
    fetch_count tr = Z.to_nat (N + 1) ∧
    delays tr = (λ attempt, APP_CONFIG.retryDelay cfg * (attempt + 1)) <$> seqZ 0 N ∧
    delays tr = (λ k, APP_CONFIG.retryDelay cfg * k) <$> seqZ 1 N.
Proof.
  intros HN Hpos Hfail.
  pose proof (makeRequest_settles N) as Hrun.
  rewrite HN in Hrun. specialize (Hrun ltac:(lia)
    ltac:(intros; apply Hfail; lia) ltac:(by right)).
  pose proof (Hfail N ltac:(lia)) as HfN. unfold attempt_fails in HfN.
  destruct (ApiClient.attempt_body (net N)) as [data|error] eqn:Hbody; [done|].
  simpl in Hrun.
  assert (∃ e, ApiClient.final_error error = ThrownApi e) as [e He].
  { destruct error as [e|e]; simpl; [eauto|]. case_decide; eauto. }
  rewrite He in Hrun.
  eexists _, e. split; [exact Hrun|]. split; [done|].
  assert (delays (backoff (APP_CONFIG.retryDelay cfg) req 0 N ++ [req])
          = (λ attempt, APP_CONFIG.retryDelay cfg * (attempt + 1)) <$> seqZ 0 N)
    as Hdelays.
  { unfold delays. rewrite bind_app. simpl. rewrite app_nil_r.
    apply delays_backoff. }
  split; [|split; [exact Hdelays|]].
  - unfold fetch_count. rewrite filter_app, length_app.
    pose proof (fetch_count_backoff cfg
      (ApiClient.baseUrl this +:+ endpoint)
      (ApiClient.requestOptions b (RequestConfig.init config))
      (default (ApiClient.defaultTimeout this) (RequestConfig.timeout config))
      0 N Hpos) as Hcount.
    unfold fetch_count in Hcount. rewrite Hcount. simpl. lia.
  - rewrite Hdelays.
    replace (seqZ 1 N) with (Z.add 1 <$> seqZ 0 N)
      by (rewrite fmap_add_seqZ; f_equal).
    rewrite <- list_fmap_compose. apply list_fmap_ext.
    intros _ attempt _. simpl. f_equal. lia.
Qed.

(** C3. When the attempts before the final one fail and the abort timer
    of the final one fires, the call throws the [ApiError] with message
    "Request timeout" and status 408. *)
Theorem timeout_mapping (N : Z) :
  retries = N →
  0 ≤ N →
  (∀ a, 0 ≤ a < N → attempt_fails (net a) = true) →
  net N = SignalFired →
  ∃ tr,
    ApiClient.makeRequest cfg this b net endpoint config
    = Some (tr, Threw (ThrownApi
        {| ApiError.message := "Request timeout";
           ApiError.status := 408;
           ApiError.errors := [] |})).
Proof.
  intros HN Hpos Hfail Hfired.
  pose proof (makeRequest_settles N) as Hrun.
  rewrite HN in Hrun. specialize (Hrun ltac:(lia) Hfail ltac:(by right)).
  rewrite Hfired in Hrun. eexists. exact Hrun.
Qed.

End RequestEngine.

(** ** Headers *)

Lemma build_headers_authorization (token : option string)
    (config_headers : option (gmap string string)) :
  ApiClient.build_headers token config_headers !! "Authorization"
  = match token with
    | Some tok =>
        if decide (tok = "") then default ∅ config_headers !! "Authorization"
        else Some ("Bearer " +:+ tok)
    | None => default ∅ config_headers !! "Authorization"
    end.
Proof.
  unfold ApiClient.build_headers.
  assert ((default ∅ config_headers ∪ {[ "Content-Type" := "application/json" ]}
            : gmap string string) !! "Authorization"
          = default ∅ config_headers !! "Authorization") as Hplain.
  { rewrite lookup_union, lookup_singleton_ne by done.
    by destruct (default ∅ config_headers !! "Authorization"). }
  destruct token as [tok|]; [|done].
  case_decide; [done|]. by rewrite lookup_insert_eq.
Qed.

(** The default content type stays unless the caller's headers replace it. *)
Lemma build_headers_content_type (token : option string)
    (config_headers : option (gmap string string)) :
  ApiClient.build_headers token config_headers !! "Content-Type"
  = Some (default "application/json"
            (default ∅ config_headers !! "Content-Type")).
Proof.
  unfold ApiClient.build_headers.
  assert ((default ∅ config_headers ∪ {[ "Content-Type" := "application/json" ]}
            : gmap string string) !! "Content-Type"
          = Some (default "application/json"
                    (default ∅ config_headers !! "Content-Type"))) as Hplain.
  { rewrite lookup_union, lookup_singleton_eq.
    by destruct (default ∅ config_headers !! "Content-Type"). }
  destruct token as [tok|]; [|done].
  case_decide; [done|]. by rewrite lookup_insert_ne.
Qed.

(** Every verb other than [upload] passes the caller's headers on as they
    are, so a call without a content type of its own is sent as JSON. *)
Lemma spread_config_headers (method : string) (body : option BodyInit)
    (config : option RequestConfig.t) :
  RequestInit.headers (RequestConfig.init (ApiClient.spread_config method body config))
  = config ≫= λ c, RequestInit.headers (RequestConfig.init c).
Proof. by destruct config. Qed.

(** [upload] hands [makeRequest] a copy of the caller's headers, and
    [makeRequest] spreads it over the JSON default as for any other call. *)
Lemma upload_content_type (token : option string) (formData : FormData)
    (config : option RequestConfig.t) :
  ApiClient.build_headers token
    (RequestInit.headers (RequestConfig.init (ApiClient.upload_config formData config)))
    !! "Content-Type"
  = Some (default "application/json"
            ((config ≫= λ c, RequestInit.headers (RequestConfig.init c))
               ≫= (.!! "Content-Type"))).
Proof.
  rewrite build_headers_content_type. f_equal. f_equal.
  destruct config as [c|]; simpl; [|done].
  by destruct (RequestInit.headers (RequestConfig.init c)).
Qed.

(** C4, at an upload without a configuration: the request that is issued
    carries the form data as its body and [Content-Type: application/json]
    as its only header. *)
Theorem upload_sends_json_content_type (b : Browser.t)
    (net : Z → FetchOutcome (ApiResponse.t (list string))) (formData : FormData) :
  ∃ tr c,
    ApiClient.upload APP_CONFIG.api sample_client b net "/files/upload" formData None
    = Some (Fetch "http://localhost:3001/api/files/upload"
              {| RequestInit.method := Some "POST";
                 RequestInit.body := Some (BodyFormData formData);
                 RequestInit.headers :=
                   Some {[ "Content-Type" := "application/json" ]} |}
              30000 :: tr, c).
Proof.
  unfold ApiClient.upload, ApiClient.makeRequest, ApiClient.loop_fuel.
  destruct (retry_loop_head APP_CONFIG.api net
    "http://localhost:3001/api/files/upload"
    {| RequestInit.method := Some "POST";
       RequestInit.body := Some (BodyFormData formData);
       RequestInit.headers := Some {[ "Content-Type" := "application/json" ]} |}
    30000 3 (S (Z.to_nat (3 + 1))) 0) as (tr & c & Hrun); [lia|lia|].
  exists tr, c. rewrite <- Hrun. f_equal.
  unfold ApiClient.requestOptions. simpl. f_equal. f_equal.
  unfold ApiClient.getAuthToken, ApiClient.build_headers.
  destruct (Browser.has_window b); simpl; apply (left_id_L ∅ (∪)).
Qed.

(** C5, as stated, fails: after [setAuthToken "abc"] a [get] is issued
    without an [Authorization] header. *)
Lemma setAuthToken_header_counterexample :
  ApiClient.get APP_CONFIG.api sample_client
    (ApiClient.setAuthToken "abc" sample_browser) healthy_net "/users" None
  = Some ([Fetch "http://localhost:3001/api/users" sample_get_init 30000],
          Returned sample_envelope)
  ∧ RequestInit.headers sample_get_init ≫= (.!! "Authorization") = None
  ∧ RequestInit.headers sample_get_init ≫= (.!! "Authorization")
    ≠ Some "Bearer abc".
Proof. split; [reflexivity|]. split; [reflexivity|discriminate]. Qed.

(** C5, amended. [setAuthToken] leaves the browser as it is and
    [getAuthToken] yields no token after it, so every request that
    [makeRequest] issues carries the default content type under the caller's
    headers and no [Authorization] header of the engine's; the header
    [Authorization: Bearer t] is what [build_headers] adds when the getter
    yields a non-empty [t], and nothing is added when it yields none. *)
Theorem auth_header_follows_getter {J : Type} `{ErrorBody J}
    (cfg : APP_CONFIG.api_t) (this : ApiClient.t) (b : Browser.t)
    (net : Z → FetchOutcome J) (endpoint : string) (config : RequestConfig.t)
    (token : string) :
  ApiClient.setAuthToken token b = b ∧
  ApiClient.getAuthToken (ApiClient.setAuthToken token b) = None ∧
  match ApiClient.makeRequest cfg this (ApiClient.setAuthToken token b)
          net endpoint config with
  | Some (tr, _) =>
      Forall (λ init,
          ∃ h, RequestInit.headers init = Some h ∧
               h !! "Authorization"
               = RequestInit.headers (RequestConfig.init config)
                   ≫= (.!! "Authorization"))
        (issued tr)
  | None => False
  end ∧
  (∀ hdrs, ApiClient.build_headers (Some token) hdrs !! "Authorization"
           = if decide (token = "") then default ∅ hdrs !! "Authorization"
             else Some ("Bearer " +:+ token)) ∧
  (∀ hdrs, ApiClient.build_headers None hdrs !! "Authorization"
           = default ∅ hdrs !! "Authorization").
Proof.
  assert (ApiClient.setAuthToken token b = b) as Hset.
  { unfold ApiClient.setAuthToken. by destruct (Browser.has_window b). }
  assert (ApiClient.getAuthToken b = None) as Hget.
  { unfold ApiClient.getAuthToken. by destruct (Browser.has_window b). }
  rewrite Hset. repeat split; try done.
  - destruct (makeRequest_total cfg this b net endpoint config) as [[tr c] Hrun].
    rewrite Hrun. unfold ApiClient.makeRequest in Hrun.
    apply retry_loop_issued in Hrun.
    eapply Forall_impl; [exact Hrun|]. intros init ->.
    unfold ApiClient.requestOptions. simpl. eexists. split; [done|].
    rewrite Hget, build_headers_authorization.
    by destruct (RequestInit.headers (RequestConfig.init config)).
  - intros hdrs. apply (build_headers_authorization (Some token)).
  - intros hdrs. apply (build_headers_authorization None).
Qed.

(** ** The single-entity hook *)

Section SoftFailure.
Context {T : Type}.
Variable cfg : APP_CONFIG.api_t.
Variable this : ApiClient.t.
Variable b : Browser.t.
Variable net : Z → FetchOutcome (ApiResponse.t T).
Variable endpoint : string.
Variable config : RequestConfig.t.

(** [fetchData] on an envelope with [success = false]. *)
Lemma useApi_soft_failure (envelope : ApiResponse.t T) (s : UseApi.state T) :
  ApiResponse.success envelope = false →
  UseApi.fetchData (Returned envelope) s
  = {| UseApi.data := UseApi.data s;
       UseApi.loading := false;
       UseApi.error :=
         Some (str_or (ApiResponse.message envelope) "Unknown error occurred") |}.
Proof. intros Hsoft. unfold UseApi.fetchData. by rewrite Hsoft. Qed.

(** C9, amended. A response with a status in 200-299 whose envelope has
    [success = false] ends the call: the engine returns the envelope and
    throws nothing. The hook then keeps [data], clears [loading] and sets
    [error] to the envelope's message when that is a non-empty string, and
    to "Unknown error occurred" when it is missing or empty. *)
Theorem soft_failure_surfaces_in_hook (k st : Z)
    (envelope : ApiResponse.t T) (s : UseApi.state T) :
  0 ≤ k ≤ default (ApiClient.defaultRetries this) (RequestConfig.retries config) →
  (∀ i, 0 ≤ i < k → attempt_fails (net i) = true) →
  net k = Responded {| Response.status := st;
                       Response.json := JsonResolves envelope |} →
  200 ≤ st ≤ 299 →
  ApiResponse.success envelope = false →
  (∃ tr, ApiClient.makeRequest cfg this b net endpoint config
         = Some (tr, Returned envelope)) ∧
  let s' := UseApi.fetchData (Returned envelope) s in
  UseApi.data s' = UseApi.data s ∧
  UseApi.loading s' = false ∧
  UseApi.error s'
  = Some match ApiResponse.message envelope with
         | Some m => if decide (m = "") then "Unknown error occurred" else m
         | None => "Unknown error occurred"
         end.
Proof.
  intros Hk Hfail Hnet Hst Hsoft.
  assert (ApiClient.attempt_body (net k) = Returned envelope) as Hbody.
  { rewrite Hnet. unfold ApiClient.attempt_body, Response.ok. simpl.
    destruct (Z.leb_spec 200 st); [|lia].
    destruct (Z.leb_spec st 299); [|lia]. done. }
  split.
  - eexists. rewrite (makeRequest_settles cfg this b net endpoint config k Hk Hfail).
    + by rewrite Hbody.
    + left. unfold attempt_fails. by rewrite Hbody.
  - rewrite useApi_soft_failure by done. simpl. done.
Qed.

End SoftFailure.

(** C9, as stated, fails: the message of the envelope is present, it is the
    empty string, and the hook's error is not that message. *)
Lemma soft_failure_empty_message_counterexample :
  ApiResponse.success empty_message_envelope = false ∧
  ApiResponse.message empty_message_envelope = Some "" ∧
  UseApi.error (UseApi.fetchData (Returned empty_message_envelope) UseApi.init)
  = Some "Unknown error occurred" ∧
  UseApi.error (UseApi.fetchData (Returned empty_message_envelope) UseApi.init)
  ≠ ApiResponse.message empty_message_envelope.
Proof. repeat split; discriminate. Qed.

(** ** The paginated hook *)

Section Paginated.
Context {T : Type}.
Variable apiCall : list (Z * Z) → Z → Z → Completion (PaginatedResponse.t T).
Variable limit : Z.

Local Abbreviation fetchData := (UsePaginatedApi.fetchData apiCall limit).
Local Abbreviation loadMore := (UsePaginatedApi.loadMore apiCall limit).

(** A fetch whose producer returns a success envelope. *)
Lemma fetchData_success (pageNum : Z) (append : bool)
    (s : UsePaginatedApi.state T) (response : PaginatedResponse.t T) :
  apiCall (UsePaginatedApi.calls s) pageNum limit = Returned response →
  PaginatedResponse.success response = true →
  fetchData pageNum append s
  = {| UsePaginatedApi.data :=
         if append then
           UsePaginatedApi.data s ++ PaginatedResponse.data response
         else PaginatedResponse.data response;
       UsePaginatedApi.loading := false;
       UsePaginatedApi.error :=
         if append then UsePaginatedApi.error s else None;
       UsePaginatedApi.page := pageNum;
       UsePaginatedApi.hasMore := PaginatedResponse.has_next_or_false response;
       UsePaginatedApi.calls := UsePaginatedApi.calls s ++ [(pageNum, limit)] |}.
Proof.
  intros Hcall Hok. unfold UsePaginatedApi.fetchData.
  destruct append; simpl; rewrite Hcall, Hok; reflexivity.
Qed.

(** A fetch whose producer throws or returns [success = false] writes
    [error] and [loading] only. *)
Lemma fetchData_failed (pageNum : Z) (append : bool)
    (s : UsePaginatedApi.state T) :
  page_fetch_failed (apiCall (UsePaginatedApi.calls s) pageNum limit) = true →
  ∃ msg,
    fetchData pageNum append s
    = {| UsePaginatedApi.data := UsePaginatedApi.data s;
         UsePaginatedApi.loading := false;
         UsePaginatedApi.error := Some msg;
         UsePaginatedApi.page := UsePaginatedApi.page s;
         UsePaginatedApi.hasMore := UsePaginatedApi.hasMore s;
         UsePaginatedApi.calls := UsePaginatedApi.calls s ++ [(pageNum, limit)] |}.
Proof.
  intros Hfailed. unfold UsePaginatedApi.fetchData.
  destruct append; simpl;
    destruct (apiCall (UsePaginatedApi.calls s) pageNum limit)
      as [response|[err|err]]; simpl in *;
    try (destruct (PaginatedResponse.success response); [done|]);
    eexists; reflexivity.
Qed.

(** Every fetch calls the producer exactly once, with its page number. *)
Lemma fetchData_calls (pageNum : Z) (append : bool)
    (s : UsePaginatedApi.state T) :
  UsePaginatedApi.calls (fetchData pageNum append s)
  = UsePaginatedApi.calls s ++ [(pageNum, limit)].
Proof.
  unfold UsePaginatedApi.fetchData.
  destruct append; simpl;
    destruct (apiCall (UsePaginatedApi.calls s) pageNum limit)
      as [response|[err|err]]; simpl;
    try (destruct (PaginatedResponse.success response)); reflexivity.
Qed.

(** C8. With [hasMore] false, or with a fetch loading, [loadMore] changes
    nothing: [data], the page counter and every other cell stay as they
    are, and the producer is not called. *)
Theorem loadMore_noop (s : UsePaginatedApi.state T) :
  UsePaginatedApi.hasMore s = false ∨ UsePaginatedApi.loading s = true →
  loadMore s = s ∧
  UsePaginatedApi.data (loadMore s) = UsePaginatedApi.data s ∧
  UsePaginatedApi.page (loadMore s) = UsePaginatedApi.page s ∧
  UsePaginatedApi.calls (loadMore s) = UsePaginatedApi.calls s.
Proof.
  intros Hguard.
  assert (loadMore s = s) as ->; [|done].
  unfold UsePaginatedApi.loadMore.
  destruct Hguard as [-> | ->]; [done|]. by rewrite andb_false_r.
Qed.

End Paginated.

(** ** The authentication hook *)

(** C6, as stated, fails: the logout call is rejected, and the action
    neither refetches the current user nor touches the stored token. *)
Lemma logout_failure_counterexample :
  UseAuth.service_calls after_rejected_logout = [UseAuth.CallLogout] ∧
  (UseAuth.CallGetCurrentUser ∉ UseAuth.service_calls after_rejected_logout) ∧
  UseAuth.user after_rejected_logout = UseAuth.user signed_in_world ∧
  Browser.localStorage (UseAuth.browser after_rejected_logout) !! "auth_token"
  = Some "abc".
Proof.
  split; [reflexivity|]. split; [|split; reflexivity].
  intros Hin. apply list_elem_of_singleton in Hin. discriminate.
Qed.

(** C6, amended. [logout] never throws and leaves the browser storage as
    it is. When the logout call returns, the current user is refetched and
    nothing is logged; when it throws, the thrown value is logged and
    neither a refetch nor any other change of the user cells happens. *)
Theorem logout_outcomes {User : Type}
    (api_user_logout : Completion (ApiResponse.t unit))
    (api_user_getCurrentUser : Completion (ApiResponse.t User))
    (w : UseAuth.world User) :
  let r := UseAuth.logout api_user_logout api_user_getCurrentUser w in
  snd r = Returned tt ∧
  UseAuth.browser (fst r) = UseAuth.browser w ∧
  match api_user_logout with
  | Returned _ =>
      UseAuth.service_calls (fst r)
      = UseAuth.service_calls w ++ [UseAuth.CallLogout; UseAuth.CallGetCurrentUser] ∧
      UseAuth.user (fst r) = UseApi.fetchData api_user_getCurrentUser (UseAuth.user w) ∧
      UseAuth.console (fst r) = UseAuth.console w
  | Threw error =>
      UseAuth.service_calls (fst r) = UseAuth.service_calls w ++ [UseAuth.CallLogout] ∧
      UseAuth.user (fst r) = UseAuth.user w ∧
      UseAuth.console (fst r) = UseAuth.console w ++ [("Logout error:"%string, error)]
  end.
Proof.
  unfold UseAuth.logout.
  destruct api_user_logout as [response|error]; simpl.
  - repeat split. by rewrite <- (assoc_L (++)).
  - repeat split.
Qed.

(** ** The properties at the sample inputs *)

Lemma retry_exhaustion_witness :
  ∃ tr e,
    ApiClient.makeRequest APP_CONFIG.api sample_client sample_browser
      failing_net "/users" RequestConfig.empty
    = Some (tr, Threw (ThrownApi e)) ∧
    fetch_count tr = 4%nat ∧
    delays tr = [1000; 2000; 3000].
Proof.
  destruct (retry_exhaustion APP_CONFIG.api sample_client sample_browser
              failing_net "/users" RequestConfig.empty 3)
    as (tr & e & Hrun & _ & Hcount & _ & Hdelays).
  - reflexivity.
  - lia.
  - intros a _. reflexivity.
  - exists tr, e. split; [exact Hrun|]. split; [exact Hcount|exact Hdelays].
Defined.

Lemma timeout_mapping_witness :
  ∃ tr,
    ApiClient.makeRequest APP_CONFIG.api sample_client sample_browser
      silent_net "/users" RequestConfig.empty
    = Some (tr, Threw (ThrownApi
        {| ApiError.message := "Request timeout";
           ApiError.status := 408;
           ApiError.errors := [] |})).
Proof.
  apply (timeout_mapping APP_CONFIG.api sample_client sample_browser
           silent_net "/users" RequestConfig.empty 3).
  - reflexivity.
  - lia.
  - intros a _. reflexivity.
  - reflexivity.
Defined.

Lemma soft_failure_surfaces_in_hook_witness :
  (∃ tr, ApiClient.makeRequest APP_CONFIG.api sample_client sample_browser
           recovering_net "/quota" RequestConfig.empty
         = Some (tr, Returned soft_failure_envelope)) ∧
  UseApi.data (UseApi.fetchData (Returned soft_failure_envelope) UseApi.init) = None ∧
  UseApi.loading (UseApi.fetchData (Returned soft_failure_envelope) UseApi.init) = false ∧
  UseApi.error (UseApi.fetchData (Returned soft_failure_envelope) UseApi.init)
  = Some "Quota exceeded".
Proof.
  apply (soft_failure_surfaces_in_hook APP_CONFIG.api sample_client sample_browser
           recovering_net "/quota" RequestConfig.empty 2 200
           soft_failure_envelope UseApi.init).
  - simpl. lia.
  - intros i Hi. assert (i = 0 ∨ i = 1) as [-> | ->] by lia; reflexivity.
  - reflexivity.
  - lia.
  - reflexivity.
Defined.

Lemma loadMore_noop_witness :
  UsePaginatedApi.hasMore listing_exhausted = false ∧
  UsePaginatedApi.loadMore sample_producer 10 listing_exhausted
  = listing_exhausted ∧
  UsePaginatedApi.calls (UsePaginatedApi.loadMore sample_producer 10 listing_exhausted)
  = [(1, 10); (2, 10); (3, 10)].
Proof.
  split; [reflexivity|].
  destruct (loadMore_noop sample_producer 10 listing_exhausted)
    as (Hsame & _ & _ & Hcalls).
  - left. reflexivity.
  - split; [exact Hsame|exact Hcalls].
Defined.

(** ** The scenarios of the specification *)

(** Two 500s, then a 200: three network calls, waits of 100 and 200. *)
Example scenario_recovery :
  ApiClient.makeRequest
    {| APP_CONFIG.timeout := 30000; APP_CONFIG.retryAttempts := 2;
       APP_CONFIG.retryDelay := 100 |}
    (ApiClient.new
       {| APP_CONFIG.timeout := 30000; APP_CONFIG.retryAttempts := 2;
          APP_CONFIG.retryDelay := 100 |} "http://localhost:3001/api")
    sample_browser recovering_net "/quota" RequestConfig.empty
  = let req :=
      Fetch "http://localhost:3001/api/quota"
        {| RequestInit.method := None; RequestInit.body := None;
           RequestInit.headers := Some {[ "Content-Type" := "application/json" ]} |}
        30000 in
    Some ([req; Delay 100; req; Delay 200; req], Returned soft_failure_envelope).
Proof. reflexivity. Qed.

(** A 503 without a body on every attempt ends in the [ApiError] built from
    the status. *)
Example scenario_http_error :
  snd <$> ApiClient.makeRequest APP_CONFIG.api sample_client sample_browser
            failing_net "/users" RequestConfig.empty
  = Some (Threw (ThrownApi
      {| ApiError.message := "HTTP 503"; ApiError.status := 503;
         ApiError.errors := [] |})).
Proof. reflexivity. Qed.

(** With a negative retry count the loop body never runs. *)
Example scenario_negative_retries :
  ApiClient.makeRequest APP_CONFIG.api sample_client sample_browser healthy_net
    "/users"
    {| RequestConfig.timeout := None; RequestConfig.retries := Some (-1);
       RequestConfig.init := RequestInit.empty |}
  = Some ([], Threw (ThrownApi
      {| ApiError.message := "Max retries exceeded"; ApiError.status := 0;
         ApiError.errors := [] |})).
Proof. reflexivity. Qed.

(** A failed [loadMore] writes the error and nothing else. *)
Example scenario_flaky_page :
  UsePaginatedApi.loadMore flaky_producer 10 (UsePaginatedApi.mount flaky_producer 10)
  = {| UsePaginatedApi.data := ["p1"; "p2"];
       UsePaginatedApi.loading := false;
       UsePaginatedApi.error := Some "Service unavailable";
       UsePaginatedApi.page := 1;
       UsePaginatedApi.hasMore := true;
       UsePaginatedApi.calls := [(1, 10); (2, 10)] |}.
Proof. reflexivity. Qed.

(** * Further properties of the code *)

(** ** The retry loop, whatever the network does *)



Lemma fetches_fetch url init ms tr :
  fetches (Fetch url init ms :: tr) = Fetch url init ms :: fetches tr.
Proof. reflexivity. Qed.

Lemma fetches_delay ms tr : fetches (Delay ms :: tr) = fetches tr.
Proof. reflexivity. Qed.

Section RetryLoopBounds.
Context {J : Type} `{ErrorBody J}.
Variable cfg : APP_CONFIG.api_t.
Variable net : Z → FetchOutcome J.
Variable url : string.
Variable options : RequestInit.t.
Variables timeout retries : Z.

Local Abbreviation loop := (ApiClient.retry_loop cfg net url options timeout retries).
Local Abbreviation req := (Fetch url options timeout).


(** Every network call of the loop is the same call. *)
Lemma retry_loop_fetches (fuel : nat) (attempt : Z) tr c :
  loop fuel attempt = Some (tr, c) →
  Forall (λ ev, ev = req) (fetches tr).
Proof.
  revert attempt tr c. induction fuel as [|fuel IH]; intros a tr c; [done|].
  simpl. destruct (Z.leb_spec a retries) as [Hle|Hgt].
  - destruct (ApiClient.attempt_body (net a)) as [data|error].
    + intros [= <- <-]. by repeat constructor.
    + destruct (Z.eqb_spec a retries) as [->|Hne].
      * intros [= <- <-]. by repeat constructor.
      * destruct (loop fuel (a + 1)) as [[tr' c']|] eqn:Hrec; [|done].
        simpl. intros [= <- <-]. rewrite fetches_fetch, fetches_delay.
        constructor; [done|]. by eapply IH.
  - intros [= <- <-]. constructor.
Qed.

End RetryLoopBounds.

Section RequestEngineMore.
Context {J : Type} `{ErrorBody J}.
Variable cfg : APP_CONFIG.api_t.
Variable this : ApiClient.t.
Variable b : Browser.t.
Variable net : Z → FetchOutcome J.
Variable endpoint : string.
Variable config : RequestConfig.t.

Local Abbreviation retries :=
  (default (ApiClient.defaultRetries this) (RequestConfig.retries config)).
Local Abbreviation req :=
  (Fetch (ApiClient.baseUrl this +:+ endpoint)
         (ApiClient.requestOptions b (RequestConfig.init config))
         (default (ApiClient.defaultTimeout this) (RequestConfig.timeout config))).

(** X1. The first attempt that returns ends the call: when attempts
    [0 .. k-1] fail and attempt [k <= retries] returns [data], the call
    returns [data] after exactly [k + 1] network calls and the waits
    [retryDelay * 1, ..., retryDelay * k]; nothing is attempted or waited
    for after it. *)
Theorem success_short_circuits (k : Z) (data : J) :
  0 ≤ k ≤ retries →
  (∀ i, 0 ≤ i < k → attempt_fails (net i) = true) →
  ApiClient.attempt_body (net k) = Returned data →
  ∃ tr,
    ApiClient.makeRequest cfg this b net endpoint config
      = Some (tr, Returned data) ∧
    tr = backoff (APP_CONFIG.retryDelay cfg) req 0 k ++ [req] ∧
    fetch_count tr = Z.to_nat (k + 1) ∧
    delays tr
    = (λ attempt, APP_CONFIG.retryDelay cfg * (attempt + 1)) <$> seqZ 0 k.
Proof.
  intros Hk Hfail Hbody.
  pose proof (makeRequest_settles cfg this b net endpoint config k Hk Hfail) as Hrun.
  rewrite Hbody in Hrun. simpl in Hrun.
  eexists. split.
  { apply Hrun. left. unfold attempt_fails. by rewrite Hbody. }
  split; [done|]. split.
  - unfold fetch_count. rewrite filter_app, length_app.
    pose proof (fetch_count_backoff cfg
      (ApiClient.baseUrl this +:+ endpoint)
      (ApiClient.requestOptions b (RequestConfig.init config))
      (default (ApiClient.defaultTimeout this) (RequestConfig.timeout config))
      0 k ltac:(lia)) as Hcount.
    unfold fetch_count in Hcount. rewrite Hcount. simpl. lia.
  - unfold delays. rewrite bind_app. simpl. rewrite app_nil_r.
    apply delays_backoff.
Qed.


(** X3. With a negative retry count the loop body never runs: no network
    call is made, whatever the backend would answer, and the call throws
    the [ApiError] "Max retries exceeded" with status 0. *)
Theorem negative_retries_make_no_call :
  retries < 0 →
  ApiClient.makeRequest cfg this b net endpoint config
  = Some ([], Threw (ThrownApi
      {| ApiError.message := "Max retries exceeded";
         ApiError.status := 0;
         ApiError.errors := [] |})).
Proof.
  intros Hneg. unfold ApiClient.makeRequest, ApiClient.loop_fuel. simpl.
  by destruct (Z.leb_spec 0 retries) as [?|_]; [lia|].
Qed.

(** X4. Every network call of one [makeRequest] is the same call: the URL
    [baseUrl + endpoint], the options built once before the loop (so a
    retried POST sends the same body again) and the same abort delay. *)
Theorem retries_repeat_the_request :
  match ApiClient.makeRequest cfg this b net endpoint config with
  | Some (tr, _) => Forall (λ ev, ev = req) (fetches tr)
  | None => False
  end.
Proof.
  destruct (makeRequest_total cfg this b net endpoint config) as [[tr c] Hrun].
  rewrite Hrun. unfold ApiClient.makeRequest in Hrun.
  by eapply retry_loop_fetches.
Qed.

(** X6. On the final attempt, a call that got no response and a 2xx
    response whose body does not decode end alike: status 0, no errors, and
    the message of the underlying error, or "Network error" when that is
    empty. The HTTP status of the undecodable response is not reported. *)
Theorem final_transport_error (N : Z) (e : JsError.t) :
  retries = N →
  0 ≤ N →
  (∀ a, 0 ≤ a < N → attempt_fails (net a) = true) →
  net N = NetworkFailure e ∨
  (∃ st, 200 ≤ st ≤ 299 ∧
         net N = Responded {| Response.status := st;
                              Response.json := JsonRejects e |}) →
  JsError.name e ≠ "AbortError" →
  ∃ tr,
    ApiClient.makeRequest cfg this b net endpoint config
    = Some (tr, Threw (ThrownApi
        {| ApiError.message :=
             if decide (JsError.message e = "") then "Network error"
             else JsError.message e;
           ApiError.status := 0;
           ApiError.errors := [] |})).
Proof.
  intros HN Hpos Hfail Hnet Hname.
  pose proof (makeRequest_settles cfg this b net endpoint config N) as Hrun.
  rewrite HN in Hrun. specialize (Hrun ltac:(lia) Hfail ltac:(by right)).
  destruct Hnet as [Hnet|(st & Hst & Hnet)]; rewrite Hnet in Hrun.
  - rewrite (cause_network_failure e Hname) in Hrun. eexists. exact Hrun.
  - rewrite (cause_malformed_body st e Hst Hname) in Hrun. eexists. exact Hrun.
Qed.

End RequestEngineMore.

(** ** What is put on the wire *)

Section IssuedRequests.
Context {J : Type} `{ErrorBody J}.
Variable cfg : APP_CONFIG.api_t.
Variable this : ApiClient.t.
Variable b : Browser.t.
Variable net : Z → FetchOutcome J.
Variable endpoint : string.

(** The options of every network call are those built before the loop. *)
Lemma makeRequest_issued (config : RequestConfig.t) :
  match ApiClient.makeRequest cfg this b net endpoint config with
  | Some (tr, _) =>
      Forall (λ init,
          init = ApiClient.requestOptions b (RequestConfig.init config))
        (issued tr)
  | None => False
  end.
Proof.
  destruct (makeRequest_total cfg this b net endpoint config) as [[tr c] Hrun].
  rewrite Hrun. unfold ApiClient.makeRequest in Hrun.
  by eapply retry_loop_issued.
Qed.

(** The headers the engine builds while no token is stored. *)
Lemma build_headers_lookup (config_headers : option (gmap string string))
    (key : string) :
  ApiClient.build_headers (ApiClient.getAuthToken b) config_headers !! key
  = match default ∅ config_headers !! key with
    | Some v => Some v
    | None =>
        if decide (key = "Content-Type") then Some "application/json" else None
    end.
Proof.
  assert (ApiClient.getAuthToken b = None) as ->.
  { unfold ApiClient.getAuthToken. by destruct (Browser.has_window b). }
  unfold ApiClient.build_headers. rewrite lookup_union, lookup_singleton.
  destruct (default ∅ config_headers !! key) as [v|]; simpl.
  - by case_decide.
  - destruct (decide ("Content-Type" = key)), (decide (key = "Content-Type"));
      first [reflexivity | congruence].
Qed.

(** X7. Every request that [makeRequest] issues has the caller's method
    and body, and as headers the caller's headers over the JSON default:
    a header the caller sets is sent with the caller's value, also
    [Content-Type]; [Content-Type] is [application/json] when the caller
    sets none; no other header is added. *)
Theorem issued_headers_are_callers_over_default (config : RequestConfig.t) :
  match ApiClient.makeRequest cfg this b net endpoint config with
  | Some (tr, _) =>
      Forall (λ init,
          RequestInit.method init = RequestInit.method (RequestConfig.init config) ∧
          RequestInit.body init = RequestInit.body (RequestConfig.init config) ∧
          ∃ h, RequestInit.headers init = Some h ∧
               ∀ key, h !! key
                      = match default ∅ (RequestInit.headers
                                           (RequestConfig.init config)) !! key with
                        | Some v => Some v
                        | None =>
                            if decide (key = "Content-Type")
                            then Some "application/json" else None
                        end)
        (issued tr)
  | None => False
  end.
Proof.
  pose proof (makeRequest_issued config) as Hissued.
  destruct (ApiClient.makeRequest cfg this b net endpoint config)
    as [[tr c]|]; [|done].
  eapply Forall_impl; [exact Hissued|]. intros init ->.
  unfold ApiClient.requestOptions. simpl. split; [done|]. split; [done|].
  eexists. split; [done|]. intros key. apply build_headers_lookup.
Qed.

(** X8. What the five verbs send. The method is the verb's unless the
    configuration names one, which then wins; the body is the one of the
    configuration when it has one; otherwise [get] and [delete] send no
    body, and [post], [put] and [patch] send the JSON text of [data] when
    [data] is given and truthy, and no body when it is not. *)
Theorem verbs_set_method_and_body {P : Type} `{ApiClient.Payload P}
    (data : option P) (config : option RequestConfig.t) :
  let caller := default RequestInit.empty (RequestConfig.init <$> config) in
  let sends (run : option (list Event * Completion J)) (verb : string)
      (body : option BodyInit) : Prop :=
    match run with
    | Some (tr, _) =>
        Forall (λ init,
            RequestInit.method init
              = Some (default verb (RequestInit.method caller)) ∧
            RequestInit.body init
              = match RequestInit.body caller with
                | Some bd => Some bd
                | None => body
                end)
          (issued tr)
    | None => False
    end in
  sends (ApiClient.get cfg this b net endpoint config) "GET" None ∧
  sends (ApiClient.post cfg this b net endpoint data config) "POST"
        (ApiClient.json_body data) ∧
  sends (ApiClient.put cfg this b net endpoint data config) "PUT"
        (ApiClient.json_body data) ∧
  sends (ApiClient.patch cfg this b net endpoint data config) "PATCH"
        (ApiClient.json_body data) ∧
  sends (ApiClient.delete cfg this b net endpoint config) "DELETE" None.
Proof.
  intros caller sends.
  assert (∀ verb body,
    sends (ApiClient.makeRequest cfg this b net endpoint
             (ApiClient.spread_config verb body config)) verb body) as Hverb.
  { intros verb body. unfold sends.
    pose proof (makeRequest_issued (ApiClient.spread_config verb body config))
      as Hissued.
    destruct (ApiClient.makeRequest cfg this b net endpoint
                (ApiClient.spread_config verb body config)) as [[tr c]|]; [|done].
    eapply Forall_impl; [exact Hissued|]. intros init ->.
    unfold caller. destruct config as [cf|]; simpl; [|done].
    by destruct (RequestInit.body (RequestConfig.init cf)). }
  repeat split; apply Hverb.
Qed.


End IssuedRequests.

(** ** The single-entity hook, further *)

Section UseApiMore.
Context {T : Type}.

(** X10. After [fetchData], [loading] is false; [error] is null exactly
    when the producer returned an envelope with [success = true]; [data]
    is the payload of that envelope then, and is kept as it was on every
    failure (a thrown value or [success = false]). *)
Theorem useApi_fetch_outcome (apiCall : Completion (ApiResponse.t T))
    (s : UseApi.state T) :
  let s' := UseApi.fetchData apiCall s in
  UseApi.loading s' = false ∧
  (UseApi.error s' = None ↔ succeeded apiCall = true) ∧
  UseApi.data s'
  = match apiCall with
    | Returned response =>
        if ApiResponse.success response
        then Some (ApiResponse.data response) else UseApi.data s
    | Threw _ => UseApi.data s
    end.
Proof.
  unfold UseApi.fetchData.
  destruct apiCall as [response|[err|err]]; simpl;
    try destruct (ApiResponse.success response); simpl;
    (split; [done|]); (split; [|done]); split; done.
Qed.

Variable cfg : APP_CONFIG.api_t.
Variable this : ApiClient.t.
Variable b : Browser.t.
Variable net : Z → FetchOutcome (ApiResponse.t T).
Variable endpoint : string.
Variable config : RequestConfig.t.

(** X12. When no attempt is answered in time, the hook ends with the error
    "Request timeout" after [retries + 1] network calls, and keeps its
    data. *)
Theorem timeout_reaches_the_hook (N : Z) (s : UseApi.state T) :
  default (ApiClient.defaultRetries this) (RequestConfig.retries config) = N →
  0 ≤ N →
  (∀ a, 0 ≤ a ≤ N → net a = SignalFired) →
  ∃ tr c,
    ApiClient.makeRequest cfg this b net endpoint config = Some (tr, c) ∧
    fetch_count tr = Z.to_nat (N + 1) ∧
    UseApi.fetchData c s
    = {| UseApi.data := UseApi.data s;
         UseApi.loading := false;
         UseApi.error := Some "Request timeout" |}.
Proof.
  intros HN Hpos Hsilent.
  pose proof (makeRequest_settles cfg this b net endpoint config N) as Hrun.
  rewrite HN in Hrun.
  specialize (Hrun ltac:(lia)
    ltac:(intros i Hi; by rewrite Hsilent by lia) ltac:(by right)).
  rewrite (Hsilent N) in Hrun by lia.
  eexists _, _. split; [exact Hrun|]. split; [|done].
  unfold fetch_count. rewrite filter_app, length_app.
  pose proof (fetch_count_backoff cfg
    (ApiClient.baseUrl this +:+ endpoint)
    (ApiClient.requestOptions b (RequestConfig.init config))
    (default (ApiClient.defaultTimeout this) (RequestConfig.timeout config))
    0 N Hpos) as Hcount.
  unfold fetch_count in Hcount. rewrite Hcount. simpl. lia.
Qed.

End UseApiMore.

(** ** The mutation hook *)

Section UseMutationFacts.
Context {TData : Type}.

(** X13. The callbacks of [mutate]. The cells do not depend on which
    callbacks are supplied; without options nothing is invoked; with all
    three supplied exactly one of [onSuccess] and [onError] is invoked and
    then [onSettled]: [onSuccess] with the payload on [success = true],
    [onError] with a plain [Error] carrying the message (or "Mutation
    failed") on [success = false], and [onError] with the thrown value
    itself when the function throws. *)
Theorem mutate_callbacks (mutationFn : Completion (ApiResponse.t TData))
    (options : option UseMutation.UseMutationOptions)
    (s : UseMutation.state TData) :
  fst (UseMutation.mutate mutationFn options s)
  = fst (UseMutation.mutate mutationFn None s) ∧
  snd (UseMutation.mutate mutationFn None s) = [] ∧
  snd (UseMutation.mutate mutationFn (Some all_callbacks) s)
  = match mutationFn with
    | Returned response =>
        if ApiResponse.success response then
          [UseMutation.OnSuccess (ApiResponse.data response); UseMutation.OnSettled]
        else
          [UseMutation.OnError
             (UseMutation.new_Error
                (str_or (ApiResponse.message response) "Mutation failed"));
           UseMutation.OnSettled]
    | Threw err => [UseMutation.OnError err; UseMutation.OnSettled]
    end.
Proof.
  unfold UseMutation.mutate.
  destruct mutationFn as [response|err]; simpl;
    try destruct (ApiResponse.success response); simpl; done.
Qed.

(** X14. After [mutate], [loading] is false; [error] is null exactly when
    the function returned an envelope with [success = true]; [data] is the
    payload then, and on every failure it is still the result of the last
    successful mutation. [reset] then puts all three cells back to their
    initial values. *)
Theorem mutate_outcome (mutationFn : Completion (ApiResponse.t TData))
    (options : option UseMutation.UseMutationOptions)
    (s : UseMutation.state TData) :
  let s' := fst (UseMutation.mutate mutationFn options s) in
  UseMutation.loading s' = false ∧
  (UseMutation.error s' = None ↔ succeeded mutationFn = true) ∧
  UseMutation.data s'
  = match mutationFn with
    | Returned response =>
        if ApiResponse.success response
        then Some (ApiResponse.data response) else UseMutation.data s
    | Threw _ => UseMutation.data s
    end ∧
  UseMutation.reset s' = UseMutation.init.
Proof.
  unfold UseMutation.mutate.
  destruct mutationFn as [response|err]; simpl;
    try destruct (ApiResponse.success response); simpl;
    (split; [done|]); (split; [|done]); split; done.
Qed.

End UseMutationFacts.

(** ** The [login] and [register] actions *)

Section UseAuthActionsFacts.
Context {User Auth : Type}.
Variable api_user_login : Completion (ApiResponse.t Auth).
Variable api_user_register : Completion (ApiResponse.t Auth).
Variable api_user_getCurrentUser : Completion (ApiResponse.t User).

Local Abbreviation login :=
  (UseAuthActions.login api_user_login api_user_getCurrentUser).
Local Abbreviation register :=
  (UseAuthActions.register api_user_register api_user_getCurrentUser).

(** X15. [login] always calls the login service and runs the mutation on
    its outcome. Whether it then refetches the current user is decided by
    the [data] cell of the login mutation as it was when [login] was
    called: when that was null nothing is refetched, whatever the outcome
    of this login; when it held a result the user is refetched, whatever
    the outcome. [register] does the same with the register mutation. *)
Theorem login_refetch_follows_earlier_data (w : UseAuthActions.world User Auth) :
  UseAuthActions.loginMutation (login w)
  = fst (UseMutation.mutate api_user_login None (UseAuthActions.loginMutation w)) ∧
  match UseMutation.data (UseAuthActions.loginMutation w) with
  | Some _ =>
      UseAuthActions.service_calls (login w)
      = UseAuthActions.service_calls w
          ++ [UseAuthActions.CallLogin; UseAuthActions.CallGetCurrentUser] ∧
      UseAuthActions.user (login w)
      = UseApi.fetchData api_user_getCurrentUser (UseAuthActions.user w)
  | None =>
      UseAuthActions.service_calls (login w)
      = UseAuthActions.service_calls w ++ [UseAuthActions.CallLogin] ∧
      UseAuthActions.user (login w) = UseAuthActions.user w
  end ∧
  UseAuthActions.registerMutation (register w)
  = fst (UseMutation.mutate api_user_register None
           (UseAuthActions.registerMutation w)) ∧
  match UseMutation.data (UseAuthActions.registerMutation w) with
  | Some _ =>
      UseAuthActions.service_calls (register w)
      = UseAuthActions.service_calls w
          ++ [UseAuthActions.CallRegister; UseAuthActions.CallGetCurrentUser] ∧
      UseAuthActions.user (register w)
      = UseApi.fetchData api_user_getCurrentUser (UseAuthActions.user w)
  | None =>
      UseAuthActions.service_calls (register w)
      = UseAuthActions.service_calls w ++ [UseAuthActions.CallRegister] ∧
      UseAuthActions.user (register w) = UseAuthActions.user w
  end.
Proof.
  unfold UseAuthActions.login, UseAuthActions.register.
  destruct (UseMutation.data (UseAuthActions.loginMutation w)),
           (UseMutation.data (UseAuthActions.registerMutation w)); simpl;
    rewrite <- ?(assoc_L (++)); done.
Qed.

(** X16. On a fresh hook the first [login] does not refetch the current
    user even when the login is accepted; a second [login] does. *)
Theorem first_login_does_not_refetch :
  succeeded api_user_login = true →
  UseAuthActions.service_calls (login UseAuthActions.init)
  = [UseAuthActions.CallLogin] ∧
  UseAuthActions.user (login UseAuthActions.init) = UseApi.init ∧
  UseAuthActions.service_calls (login (login UseAuthActions.init))
  = [UseAuthActions.CallLogin; UseAuthActions.CallLogin;
     UseAuthActions.CallGetCurrentUser].
Proof.
  intros Hok. unfold UseAuthActions.login at 2 3. simpl.
  split; [done|]. split; [done|].
  unfold UseAuthActions.login, UseMutation.mutate. simpl.
  destruct api_user_login as [response|err]; [|done]. simpl in Hok.
  by rewrite Hok.
Qed.

End UseAuthActionsFacts.

(** ** The paginated hook, further *)

Section PaginatedMore.
Context {T : Type}.
Variable apiCall : list (Z * Z) → Z → Z → Completion (PaginatedResponse.t T).
Variable limit : Z.

Local Abbreviation fetchData := (UsePaginatedApi.fetchData apiCall limit).
Local Abbreviation loadMore := (UsePaginatedApi.loadMore apiCall limit).
Local Abbreviation refetch := (UsePaginatedApi.refetch apiCall limit).

(** A fetch either stores a success envelope or writes an error. *)
Lemma fetchData_cases (pageNum : Z) (append : bool) (s : UsePaginatedApi.state T) :
  (∃ response,
     apiCall (UsePaginatedApi.calls s) pageNum limit = Returned response ∧
     PaginatedResponse.success response = true) ∨
  page_fetch_failed (apiCall (UsePaginatedApi.calls s) pageNum limit) = true.
Proof.
  destruct (apiCall (UsePaginatedApi.calls s) pageNum limit) as [response|err];
    [|by right].
  destruct (PaginatedResponse.success response) eqn:Hok; [left; eauto|].
  right. simpl. by rewrite Hok.
Qed.

(** X18. A successful [loadMore] appends the new page and leaves [error]
    as it was: the message of an earlier failure stays in place until a
    fetch that replaces the data. *)
Theorem loadMore_keeps_error (s : UsePaginatedApi.state T)
    (response : PaginatedResponse.t T) :
  UsePaginatedApi.hasMore s = true →
  UsePaginatedApi.loading s = false →
  apiCall (UsePaginatedApi.calls s) (UsePaginatedApi.page s + 1) limit
    = Returned response →
  PaginatedResponse.success response = true →
  UsePaginatedApi.error (loadMore s) = UsePaginatedApi.error s ∧
  UsePaginatedApi.data (loadMore s)
  = UsePaginatedApi.data s ++ PaginatedResponse.data response ∧
  UsePaginatedApi.page (loadMore s) = UsePaginatedApi.page s + 1.
Proof.
  intros Hmore Hidle Hcall Hok. unfold UsePaginatedApi.loadMore.
  rewrite Hmore, Hidle. simpl andb. cbv iota.
  by rewrite (fetchData_success apiCall limit _ true s response Hcall Hok).
Qed.

(** X19. [refetch] asks for page 1 once and leaves the page counter at 1
    and [loading] false whatever the outcome. On a success envelope [data]
    is replaced by the items of that page and [error] is cleared; on a
    failure [data] and [hasMore] are kept while the counter is at 1 all the
    same. *)
Theorem refetch_outcome (s : UsePaginatedApi.state T) :
  UsePaginatedApi.page (refetch s) = 1 ∧
  UsePaginatedApi.loading (refetch s) = false ∧
  UsePaginatedApi.calls (refetch s) = UsePaginatedApi.calls s ++ [(1, limit)] ∧
  match apiCall (UsePaginatedApi.calls s) 1 limit with
  | Returned response =>
      if PaginatedResponse.success response then
        UsePaginatedApi.data (refetch s) = PaginatedResponse.data response ∧
        UsePaginatedApi.error (refetch s) = None ∧
        UsePaginatedApi.hasMore (refetch s)
        = PaginatedResponse.has_next_or_false response
      else
        UsePaginatedApi.data (refetch s) = UsePaginatedApi.data s ∧
        UsePaginatedApi.hasMore (refetch s) = UsePaginatedApi.hasMore s
  | Threw _ =>
      UsePaginatedApi.data (refetch s) = UsePaginatedApi.data s ∧
      UsePaginatedApi.hasMore (refetch s) = UsePaginatedApi.hasMore s
  end.
Proof.
  unfold UsePaginatedApi.refetch.
  destruct (fetchData_cases 1 false (UsePaginatedApi.setPage 1 s))
    as [(response & Hcall & Hok)|Hfailed].
  - rewrite (fetchData_success apiCall limit 1 false _ response Hcall Hok).
    simpl in Hcall. rewrite Hcall, Hok. done.
  - destruct (fetchData_failed apiCall limit 1 false _ Hfailed) as [msg ->].
    simpl in Hfailed.
    destruct (apiCall (UsePaginatedApi.calls s) 1 limit) as [response|err];
      simpl in *; [|done].
    by destruct (PaginatedResponse.success response).
Qed.

(** X20. After a [refetch] that fails, the page counter is at 1 while
    [data] still holds everything loaded before, so the next [loadMore]
    asks for page 2 and appends it to the kept data: pages that were
    already loaded are appended again. *)
Theorem failed_refetch_then_loadMore (s : UsePaginatedApi.state T)
    (response : PaginatedResponse.t T) :
  UsePaginatedApi.hasMore s = true →
  page_fetch_failed (apiCall (UsePaginatedApi.calls s) 1 limit) = true →
  apiCall (UsePaginatedApi.calls s ++ [(1, limit)]) 2 limit = Returned response →
  PaginatedResponse.success response = true →
  UsePaginatedApi.data (loadMore (refetch s))
  = UsePaginatedApi.data s ++ PaginatedResponse.data response ∧
  UsePaginatedApi.page (loadMore (refetch s)) = 2 ∧
  UsePaginatedApi.calls (loadMore (refetch s))
  = UsePaginatedApi.calls s ++ [(1, limit); (2, limit)].
Proof.
  intros Hmore Hfailed Hcall Hok. unfold UsePaginatedApi.refetch.
  destruct (fetchData_failed apiCall limit 1 false
              (UsePaginatedApi.setPage 1 s) Hfailed) as [msg ->].
  unfold UsePaginatedApi.loadMore.
  cbn [UsePaginatedApi.hasMore UsePaginatedApi.loading UsePaginatedApi.page
       UsePaginatedApi.calls UsePaginatedApi.setPage negb].
  rewrite Hmore. simpl andb. cbv iota.
  change (1 + 1) with 2.
  erewrite fetchData_success; [|exact Hcall|exact Hok].
  simpl. by rewrite <- (assoc_L (++)).
Qed.

(** X21. A success envelope without a pagination block ends the paging:
    [hasMore] becomes false and [loadMore] does nothing from then on. *)
Theorem missing_pagination_stops_paging (pageNum : Z) (append : bool)
    (s : UsePaginatedApi.state T) (response : PaginatedResponse.t T) :
  apiCall (UsePaginatedApi.calls s) pageNum limit = Returned response →
  PaginatedResponse.success response = true →
  PaginatedResponse.pagination response = None →
  UsePaginatedApi.hasMore (fetchData pageNum append s) = false ∧
  loadMore (fetchData pageNum append s) = fetchData pageNum append s ∧
  loadMore (loadMore (fetchData pageNum append s)) = fetchData pageNum append s.
Proof.
  intros Hcall Hok Hnone.
  rewrite (fetchData_success apiCall limit pageNum append s response Hcall Hok).
  unfold PaginatedResponse.has_next_or_false. rewrite Hnone.
  by unfold UsePaginatedApi.loadMore.
Qed.

End PaginatedMore.

(** ** The active navigation item *)

Section NavigationFacts.

Lemma first_child_Some (pathname : string) (cs : list Navigation.NavItem)
    (child : Navigation.NavItem) :
  Navigation.first_child pathname cs = Some child →
  child ∈ cs ∧ Navigation.href child = pathname.
Proof.
  induction cs as [|c cs IH]; simpl; [done|].
  case_bool_decide as Hc.
  - intros [= <-]. split; [left|done].
  - intros Hfound. destruct (IH Hfound). split; [by right|done].
Qed.

Lemma first_child_None (pathname : string) (cs : list Navigation.NavItem) :
  Navigation.first_child pathname cs = None ↔
  ∀ child, child ∈ cs → Navigation.href child ≠ pathname.
Proof.
  induction cs as [|c cs IH]; simpl.
  - split; [|done]. intros _ child Hin. by apply elem_of_nil in Hin.
  - case_bool_decide as Hc.
    + split; [done|]. intros Hall. exfalso. apply (Hall c); [left|done].
    + rewrite IH. split.
      * intros Hall child Hin. apply elem_of_cons in Hin as [->|Hin]; auto.
      * intros Hall child Hin. apply Hall. by right.
Qed.

Lemma existsb_href (pathname : string) (cs : list Navigation.NavItem) :
  existsb (λ child, bool_decide (Navigation.href child = pathname)) cs = true ↔
  ∃ child, child ∈ cs ∧ Navigation.href child = pathname.
Proof.
  induction cs as [|c cs IH]; simpl.
  - split; [done|]. intros (child & Hin & _). by apply elem_of_nil in Hin.
  - rewrite orb_true_iff, IH, bool_decide_eq_true. split.
    + intros [Hc|(child & Hin & Hhref)].
      * exists c. split; [left|done].
      * exists child. split; [by right|done].
    + intros (child & Hin & Hhref).
      apply elem_of_cons in Hin as [->|Hin]; [by left|right; eauto].
Qed.

Lemma isNavItemActive_true (item : Navigation.NavItem) (pathname : string) :
  Navigation.isNavItemActive item pathname = true ↔
  Navigation.href item = pathname ∨
  ∃ cs child, Navigation.children item = Some cs ∧ child ∈ cs ∧
              Navigation.href child = pathname.
Proof.
  unfold Navigation.isNavItemActive. case_bool_decide as Hitem.
  - split; [by left|done].
  - destruct (Navigation.children item) as [cs|].
    + rewrite existsb_href. split.
      * intros (child & Hin & Hhref). right. by exists cs, child.
      * intros [?|(cs' & child & [= <-] & Hin & Hhref)]; [done|eauto].
    + split; [done|]. by intros [?|(cs' & child & ? & _)].
Qed.

(** X23. [isNavItemActive] holds exactly when the item's own [href] is the
    path or one of its direct children has the path as [href]; an item
    without [children] is active only at its own [href], and deeper
    descendants are not looked at. *)
Theorem isNavItemActive_spec (item : Navigation.NavItem) (pathname : string) :
  (Navigation.isNavItemActive item pathname = true ↔
   Navigation.href item = pathname ∨
   ∃ cs child, Navigation.children item = Some cs ∧ child ∈ cs ∧
               Navigation.href child = pathname) ∧
  (Navigation.children item = None →
   Navigation.isNavItemActive item pathname
   = bool_decide (Navigation.href item = pathname)).
Proof.
  split; [apply isNavItemActive_true|].
  intros Hleaf. unfold Navigation.isNavItemActive. rewrite Hleaf.
  by case_bool_decide.
Qed.

(** X24. An item that [getActiveNavItem] returns has the path as its
    [href], and it is a top-level item or a direct child of a top-level
    item; the top-level item it is or belongs to is active for the path. *)
Theorem getActiveNavItem_sound (items : list Navigation.NavItem)
    (pathname : string) (it : Navigation.NavItem) :
  Navigation.getActiveNavItem_in items pathname = Some it →
  Navigation.href it = pathname ∧
  listed items it ∧
  ∃ top, top ∈ items ∧ Navigation.isNavItemActive top pathname = true.
Proof.
  induction items as [|item rest IH]; simpl; [done|].
  case_bool_decide as Hitem.
  - intros [= <-]. split; [done|]. split; [left; left|].
    exists item. split; [left|]. apply isNavItemActive_true. by left.
  - assert (Navigation.getActiveNavItem_in rest pathname = Some it →
            Navigation.href it = pathname ∧ listed (item :: rest) it ∧
            ∃ top, top ∈ item :: rest ∧
                   Navigation.isNavItemActive top pathname = true) as Hrest.
    { intros Hfound. destruct (IH Hfound) as (Hhref & Hlisted & top & Hin & Hact).
      split; [done|]. split.
      - destruct Hlisted as [?|(parent & cs & ? & ? & ?)].
        + left. by right.
        + right. exists parent, cs. split; [by right|done].
      - exists top. split; [by right|done]. }
    destruct (Navigation.children item) as [cs|] eqn:Hcs; [|done].
    destruct (Navigation.first_child pathname cs) as [child|] eqn:Hchild; [|done].
    intros [= <-]. apply first_child_Some in Hchild as [Hin Hhref].
    split; [done|]. split.
    + right. exists item, cs. split; [left|done].
    + exists item. split; [left|]. apply isNavItemActive_true. right. eauto.
Qed.

(** X25. [getActiveNavItem] returns null exactly when no top-level item
    and no direct child of one has the path as its [href]. *)
Theorem getActiveNavItem_complete (items : list Navigation.NavItem)
    (pathname : string) :
  Navigation.getActiveNavItem_in items pathname = None ↔
  ∀ it, listed items it → Navigation.href it ≠ pathname.
Proof.
  induction items as [|item rest IH]; simpl.
  - split; [|done]. intros _ it [Hin|(parent & cs & Hin & _)];
      by apply elem_of_nil in Hin.
  - assert ((∀ it, listed (item :: rest) it → Navigation.href it ≠ pathname) ↔
            Navigation.href item ≠ pathname ∧
            (∀ cs child, Navigation.children item = Some cs → child ∈ cs →
                         Navigation.href child ≠ pathname) ∧
            (∀ it, listed rest it → Navigation.href it ≠ pathname)) as ->.
    { split.
      - intros Hall. split; [apply Hall; left; left|]. split.
        + intros cs child Hcs Hin. apply Hall. right.
          exists item, cs. split; [left|done].
        + intros it [Hin|(parent & cs & Hin & Hcs & Hchild)]; apply Hall.
          * left. by right.
          * right. exists parent, cs. split; [by right|done].
      - intros (Hitem & Hchildren & Hrest) it
          [Hin|(parent & cs & Hin & Hcs & Hchild)].
        + apply elem_of_cons in Hin as [->|Hin]; [done|].
          apply Hrest. by left.
        + apply elem_of_cons in Hin as [->|Hin]; [by eapply Hchildren|].
          apply Hrest. right. by exists parent, cs. }
    rewrite <- IH. case_bool_decide as Hitem.
    + split; [done|]. by intros (? & _).
    + destruct (Navigation.children item) as [cs|].
      * destruct (Navigation.first_child pathname cs) as [child|] eqn:Hchild.
        -- apply first_child_Some in Hchild as [Hin Hhref].
           split; [done|]. intros (_ & Hchildren & _).
           by destruct (Hchildren cs child).
        -- split; [|by intros (_ & _ & ?)].
           intros Hnone. split; [done|]. split; [|done].
           intros cs' child [= <-]. by apply first_child_None.
      * split; [|by intros (_ & _ & ?)].
        intros Hnone. by split.
Qed.

(** X26. The items are tried in order: when no item before [item] is
    active for the path and [item] is, the result is [item] itself if its
    own [href] is the path (also when a child has that [href] too), and
    otherwise its first child with that [href]; the items after it are not
    looked at. *)
Theorem getActiveNavItem_first_active
    (before after : list Navigation.NavItem) (item : Navigation.NavItem)
    (pathname : string) :
  Forall (λ x, Navigation.isNavItemActive x pathname = false) before →
  Navigation.isNavItemActive item pathname = true →
  Navigation.getActiveNavItem_in (before ++ item :: after) pathname
  = (if bool_decide (Navigation.href item = pathname) then Some item
     else Navigation.children item ≫= Navigation.first_child pathname) ∧
  is_Some (Navigation.getActiveNavItem_in (before ++ item :: after) pathname).
Proof.
  intros Hbefore Hactive.
  assert (Navigation.getActiveNavItem_in (item :: after) pathname
          = (if bool_decide (Navigation.href item = pathname) then Some item
             else Navigation.children item ≫= Navigation.first_child pathname) ∧
          is_Some (Navigation.getActiveNavItem_in (item :: after) pathname))
    as Hhere.
  { simpl. case_bool_decide as Hitem; [done|].
    apply isNavItemActive_true in Hactive
      as [?|(cs & child & Hcs & Hin & Hhref)]; [done|].
    rewrite Hcs. simpl.
    destruct (Navigation.first_child pathname cs) as [c|] eqn:Hchild; [done|].
    exfalso. by apply (proj1 (first_child_None pathname cs) Hchild child). }
  induction Hbefore as [|x before Hx _ IH]; [done|].
  simpl. unfold Navigation.isNavItemActive in Hx.
  destruct (bool_decide (Navigation.href x = pathname)); [done|].
  destruct (Navigation.children x) as [cs|]; [|done].
  destruct (Navigation.first_child pathname cs) as [c|] eqn:Hchild; [|done].
  apply first_child_Some in Hchild as [Hin Hc].
  assert (existsb (λ child, bool_decide (Navigation.href child = pathname)) cs
          = true) as Hex by (apply existsb_href; eauto).
  congruence.
Qed.

End NavigationFacts.

(** ** The service calls *)

Lemma string_length_app (s t : string) :
  String.length (s +:+ t) = (String.length s + String.length t)%nat.
Proof. induction s as [|a s IH]; simpl; [done|]. by rewrite IH. Qed.

Lemma string_app_nil_r (s : string) : s +:+ "" = s.
Proof.
  induction s as [|a s IH]; [done|].
  change (String a s +:+ "") with (String a (s +:+ "")). by rewrite IH.
Qed.

Lemma string_app_assoc (s t u : string) : (s +:+ t) +:+ u = s +:+ t +:+ u.
Proof.
  induction s as [|a s IH]; [done|].
  change ((String a s +:+ t) +:+ u) with (String a ((s +:+ t) +:+ u)).
  by rewrite IH.
Qed.

(** Appending the same text to two strings keeps them apart. *)
Lemma string_app_inj_r (s1 s2 t : string) : s1 +:+ t = s2 +:+ t → s1 = s2.
Proof.
  revert s2. induction s1 as [|a s1 IH]; intros [|a2 s2] Heq; simpl in *.
  - done.
  - apply (f_equal String.length) in Heq.
    rewrite !string_length_app in Heq. simpl in Heq.
    rewrite ?string_length_app in Heq. lia.
  - apply (f_equal String.length) in Heq.
    rewrite !string_length_app in Heq. simpl in Heq.
    rewrite ?string_length_app in Heq. lia.
  - injection Heq as -> Heq. f_equal. by apply IH.
Qed.

(** X27. The status filter of the paginated services is optional: the
    endpoint is the one without a filter exactly when [status] is missing
    or the empty string, and otherwise it ends in [&status=] and the
    status. With an empty status [getProjects] is the same call as without
    one. *)
Theorem status_filter_is_optional {J : Type} `{ErrorBody J}
    (cfg : APP_CONFIG.api_t) (this : ApiClient.t) (b : Browser.t)
    (net : Z → FetchOutcome J) (path : string) (page limit : Z)
    (status : option string) :
  (Services.page_endpoint path page limit (Services.statusParam status)
   = Services.page_endpoint path page limit "" ↔
   status = None ∨ status = Some "") ∧
  (∀ s, status = Some s → s ≠ "" →
        Services.page_endpoint path page limit (Services.statusParam status)
        = Services.page_endpoint path page limit "" +:+ "&status=" +:+ s) ∧
  Services.getProjects cfg this b net (Some page) (Some limit) (Some "")
  = Services.getProjects cfg this b net (Some page) (Some limit) None.
Proof.
  split; [|split; [|done]].
  - split.
    + unfold Services.page_endpoint. intros Heq.
      do 5 apply (inj (String.app _)) in Heq.
      unfold Services.statusParam in Heq.
      destruct status as [s|]; [|by left]. right.
      by case_decide; [subst|].
    + by intros [-> | ->].
  - intros s -> Hs. unfold Services.page_endpoint, Services.statusParam.
    case_decide; [done|].
    by rewrite string_app_nil_r, !string_app_assoc.
Qed.

(** X28. The form of [uploadMultipleFiles] has one entry per file, in the
    order of the files, the one of file [i] named [files[i]], and the
    folder as its last entry; the names of the entries are pairwise
    different. *)
Theorem multiple_files_form_entries (files : list string) (folder : string) :
  length (Services.multiple_files_form files folder) = S (length files) ∧
  (∀ i file, files !! i = Some file →
     Services.multiple_files_form files folder !! i
     = Some ("files[" +:+ pretty i +:+ "]", file)) ∧
  Services.multiple_files_form files folder !! length files
  = Some ("folder", folder) ∧
  NoDup (Services.multiple_files_form files folder).*1.
Proof.
  unfold Services.multiple_files_form. split; [|split; [|split]].
  - rewrite length_app, length_imap. simpl. lia.
  - intros i file Hfile.
    rewrite lookup_app_l by (rewrite length_imap; by eapply lookup_lt_Some).
    by rewrite list_lookup_imap, Hfile.
  - rewrite lookup_app_r by (by rewrite length_imap).
    by rewrite length_imap, Nat.sub_diag.
  - rewrite fmap_app. apply NoDup_app. split; [|split].
    + rewrite fmap_imap. apply NoDup_alt. intros i j name Hi Hj.
      rewrite list_lookup_imap in Hi, Hj.
      destruct (files !! i), (files !! j); simpl in *; try done.
      injection Hi as <-. injection Hj as Hj.
      apply (inj (String.app _)), string_app_inj_r in Hj.
      by apply (inj pretty) in Hj.
    + intros name Hin Hfolder. apply list_elem_of_singleton in Hfolder as ->.
      rewrite fmap_imap in Hin. apply elem_of_lookup_imap_1 in Hin
        as (i & file & Hname & _).
      simpl in Hname. discriminate.
    + simpl. apply NoDup_singleton.
Qed.

(** ** The further properties at the sample inputs *)

Lemma success_short_circuits_witness :
  ∃ tr,
    ApiClient.makeRequest APP_CONFIG.api sample_client sample_browser
      recovering_net "/quota" RequestConfig.empty
    = Some (tr, Returned soft_failure_envelope) ∧
    fetch_count tr = 3%nat ∧
    delays tr = [1000; 2000].
Proof.
  destruct (success_short_circuits APP_CONFIG.api sample_client sample_browser
              recovering_net "/quota" RequestConfig.empty 2 soft_failure_envelope)
    as (tr & Hrun & _ & Hcount & Hdelays).
  - simpl. lia.
  - intros i Hi. assert (i = 0 ∨ i = 1) as [-> | ->] by lia; reflexivity.
  - reflexivity.
  - exists tr. split; [exact Hrun|]. split; [exact Hcount|exact Hdelays].
Defined.

Lemma negative_retries_make_no_call_witness :
  ApiClient.makeRequest APP_CONFIG.api sample_client sample_browser
    healthy_net "/users" no_retries
  = Some ([], Threw (ThrownApi
      {| ApiError.message := "Max retries exceeded";
         ApiError.status := 0;
         ApiError.errors := [] |})).
Proof.
  apply (negative_retries_make_no_call APP_CONFIG.api sample_client
           sample_browser healthy_net "/users" no_retries).
  simpl. lia.
Defined.

Lemma final_transport_error_witness :
  ∃ tr,
    ApiClient.makeRequest APP_CONFIG.api sample_client sample_browser
      unreachable_net "/users" RequestConfig.empty
    = Some (tr, Threw (ThrownApi
        {| ApiError.message := "Failed to fetch";
           ApiError.status := 0;
           ApiError.errors := [] |})).
Proof.
  apply (final_transport_error APP_CONFIG.api sample_client sample_browser
           unreachable_net "/users" RequestConfig.empty 3
           {| JsError.name := "TypeError"; JsError.message := "Failed to fetch" |}).
  - reflexivity.
  - lia.
  - intros a _. reflexivity.
  - left. reflexivity.
  - discriminate.
Defined.

Lemma timeout_reaches_the_hook_witness :
  ∃ tr c,
    ApiClient.makeRequest APP_CONFIG.api sample_client sample_browser
      silent_net "/users" RequestConfig.empty = Some (tr, c) ∧
    fetch_count tr = 4%nat ∧
    UseApi.fetchData c UseApi.init
    = {| UseApi.data := None; UseApi.loading := false;
         UseApi.error := Some "Request timeout" |}.
Proof.
  apply (timeout_reaches_the_hook APP_CONFIG.api sample_client sample_browser
           silent_net "/users" RequestConfig.empty 3 UseApi.init).
  - reflexivity.
  - lia.
  - intros a _. reflexivity.
Defined.

Lemma first_login_does_not_refetch_witness :
  UseAuthActions.service_calls
    (UseAuthActions.login login_accepted current_user_ada
       (UseAuthActions.init (User := string)))
  = [UseAuthActions.CallLogin] ∧
  UseAuthActions.user
    (UseAuthActions.login login_accepted current_user_ada UseAuthActions.init)
  = UseApi.init ∧
  UseAuthActions.service_calls
    (UseAuthActions.login login_accepted current_user_ada
       (UseAuthActions.login login_accepted current_user_ada UseAuthActions.init))
  = [UseAuthActions.CallLogin; UseAuthActions.CallLogin;
     UseAuthActions.CallGetCurrentUser].
Proof.
  apply (first_login_does_not_refetch login_accepted current_user_ada).
  reflexivity.
Defined.

Lemma loadMore_keeps_error_witness :
  UsePaginatedApi.error listing_after_rejection = Some "Service unavailable" ∧
  UsePaginatedApi.error (UsePaginatedApi.loadMore flaky_producer 10
                           listing_after_rejection)
  = UsePaginatedApi.error listing_after_rejection ∧
  UsePaginatedApi.data (UsePaginatedApi.loadMore flaky_producer 10
                          listing_after_rejection)
  = ["p1"; "p2"; "p3"; "p4"] ∧
  UsePaginatedApi.page (UsePaginatedApi.loadMore flaky_producer 10
                          listing_after_rejection) = 2.
Proof.
  split; [reflexivity|].
  apply (loadMore_keeps_error flaky_producer 10 listing_after_rejection
           (sample_page_envelope 2 10)); reflexivity.
Defined.

Lemma failed_refetch_then_loadMore_witness :
  UsePaginatedApi.data two_pages_loaded = ["p1"; "p2"; "p3"; "p4"] ∧
  UsePaginatedApi.data
    (UsePaginatedApi.loadMore third_call_fails 10
       (UsePaginatedApi.refetch third_call_fails 10 two_pages_loaded))
  = ["p1"; "p2"; "p3"; "p4"; "p3"; "p4"] ∧
  UsePaginatedApi.page
    (UsePaginatedApi.loadMore third_call_fails 10
       (UsePaginatedApi.refetch third_call_fails 10 two_pages_loaded)) = 2 ∧
  UsePaginatedApi.calls
    (UsePaginatedApi.loadMore third_call_fails 10
       (UsePaginatedApi.refetch third_call_fails 10 two_pages_loaded))
  = [(1, 10); (2, 10); (1, 10); (2, 10)].
Proof.
  split; [reflexivity|].
  apply (failed_refetch_then_loadMore third_call_fails 10 two_pages_loaded
           (sample_page_envelope 2 10)); reflexivity.
Defined.

Lemma missing_pagination_stops_paging_witness :
  UsePaginatedApi.hasMore (UsePaginatedApi.mount unpaged_producer 10) = false ∧
  UsePaginatedApi.loadMore unpaged_producer 10
    (UsePaginatedApi.mount unpaged_producer 10)
  = UsePaginatedApi.mount unpaged_producer 10 ∧
  UsePaginatedApi.loadMore unpaged_producer 10
    (UsePaginatedApi.loadMore unpaged_producer 10
       (UsePaginatedApi.mount unpaged_producer 10))
  = UsePaginatedApi.mount unpaged_producer 10.
Proof.
  apply (missing_pagination_stops_paging unpaged_producer 10 1 false
           UsePaginatedApi.init unpaged_envelope); reflexivity.
Defined.

Lemma getActiveNavItem_sound_witness :
  Navigation.getActiveNavItem_in nested_items "/resources/docs"
  = Some (Navigation.leaf "docs" "Documentation" "/resources/docs" None) ∧
  listed nested_items
    (Navigation.leaf "docs" "Documentation" "/resources/docs" None) ∧
  ∃ top, top ∈ nested_items ∧
         Navigation.isNavItemActive top "/resources/docs" = true.
Proof.
  split; [reflexivity|].
  apply (getActiveNavItem_sound nested_items "/resources/docs"
           (Navigation.leaf "docs" "Documentation" "/resources/docs" None)).
  reflexivity.
Defined.

Lemma getActiveNavItem_first_active_witness :
  Navigation.getActiveNavItem_in
    ([Navigation.leaf "home" "Home" "/" None] ++ resources_item :: Navigation.NAV_ITEMS)
    "/resources/guides"
  = Some (Navigation.leaf "guides" "Guides" "/resources/guides" None) ∧
  is_Some (Navigation.getActiveNavItem_in
             ([Navigation.leaf "home" "Home" "/" None]
                ++ resources_item :: Navigation.NAV_ITEMS)
             "/resources/guides").
Proof.
  apply (getActiveNavItem_first_active
           [Navigation.leaf "home" "Home" "/" None] Navigation.NAV_ITEMS
           resources_item "/resources/guides").
  - repeat constructor.
  - reflexivity.
Defined.

(** * The engine over undecoded bodies *)

Section UntypedEngine.
Variable cfg : APP_CONFIG.api_t.
Variable type_error_text : TypeErrorCause → string.

Local Abbreviation attempt_body := (Untyped.attempt_body type_error_text).




Section Loop.
Variable net : Z → FetchOutcome Json.
Variable url : string.
Variable options : RequestInit.t.
Variables timeout retries : Z.

Local Abbreviation loop :=
  (Untyped.retry_loop cfg type_error_text net url options timeout retries).
Local Abbreviation req := (Fetch url options timeout).



Lemma untyped_retry_loop_settles (fuel : nat) (a k : Z) :
  a ≤ k ≤ retries →
  (∀ i, a ≤ i < k → untyped_attempt_fails type_error_text (net i) = true) →
  untyped_attempt_fails type_error_text (net k) = false ∨ k = retries →
  (Z.to_nat (k - a) < fuel)%nat →
  loop fuel a
  = Some (backoff (APP_CONFIG.retryDelay cfg) req a (k - a) ++ [req],
          untyped_settle (attempt_body (net k))).
Proof.
  revert a. induction fuel as [|fuel IH]; intros a Hak Hfail Hend Hfuel; [lia|].
  simpl. destruct (Z.leb_spec a retries) as [_|?]; [|lia].
  destruct (decide (a = k)) as [->|Hne].
  - replace (k - k) with 0 by lia. unfold backoff. simpl.
    unfold untyped_attempt_fails in Hend.
    destruct (attempt_body (net k)) as [data|error]; [done|].
    destruct Hend as [?| ->]; [done|]. by rewrite Z.eqb_refl.
  - pose proof (Hfail a ltac:(lia)) as Ha. unfold untyped_attempt_fails in Ha.
    destruct (attempt_body (net a)) as [data|error]; [done|].
    destruct (Z.eqb_spec a retries) as [?|_]; [lia|].
    rewrite (IH (a + 1)); [|lia|intros; apply Hfail; lia|done|lia].
    simpl. unfold backoff.
    rewrite (seqZ_cons a (k - a)) by lia. simpl.
    by replace (Z.pred (k - a)) with (k - (a + 1)) by lia.
Qed.

End Loop.

Variable this : ApiClient.t.
Variable b : Browser.t.
Variable net : Z → FetchOutcome Json.
Variable endpoint : string.


Lemma untyped_makeRequest_settles (config : RequestConfig.t) (k : Z) :
  0 ≤ k ≤ default (ApiClient.defaultRetries this) (RequestConfig.retries config) →
  (∀ i, 0 ≤ i < k → untyped_attempt_fails type_error_text (net i) = true) →
  untyped_attempt_fails type_error_text (net k) = false ∨
  k = default (ApiClient.defaultRetries this) (RequestConfig.retries config) →
  ∃ tr,
    Untyped.makeRequest cfg type_error_text this b net endpoint config
    = Some (tr, untyped_settle (attempt_body (net k))) ∧
    fetch_count tr = Z.to_nat (k + 1).
Proof.
  intros Hk Hfail Hend.
  unfold Untyped.makeRequest, ApiClient.loop_fuel.
  rewrite (untyped_retry_loop_settles _ _ _ _ _ _ 0 k); [|lia|done|done|lia].
  eexists. split; [done|].
  unfold fetch_count. rewrite filter_app, length_app, Z.sub_0_r.
  pose proof (fetch_count_backoff cfg
    (ApiClient.baseUrl this +:+ endpoint)
    (ApiClient.requestOptions b (RequestConfig.init config))
    (default (ApiClient.defaultTimeout this) (RequestConfig.timeout config))
    0 k ltac:(lia)) as Hcount.
  unfold fetch_count in Hcount. rewrite Hcount. simpl. lia.
Qed.


End UntypedEngine.

Section UntypedClaims.
Variable cfg : APP_CONFIG.api_t.
Variable type_error_text : TypeErrorCause → string.
Variable this : ApiClient.t.
Variable b : Browser.t.
Variable net : Z → FetchOutcome Json.
Variable endpoint : string.


(** X5. A status outside 200-299 on the final attempt. When the body does
    not decode, the [ApiError] has that status, the message
    "HTTP <status>" and no errors. When the body decodes to [null],
    reading its message throws inside the [try], and the [ApiError] has
    status 0 and the message of that [TypeError]. For every other decoded
    body the message is the body's [message] when that is truthy and
    "HTTP <status>" otherwise: when its conversion to a text throws, the
    [ApiError] has status 0 and the message of that [TypeError]; otherwise
    the [ApiError] has the status of the response, that text as message,
    and as errors the body's [errors] when that is truthy and the empty
    list otherwise. *)
Theorem final_http_error_by_body (config : RequestConfig.t) (N st : Z)
    (body : JsonResult Json) :
  default (ApiClient.defaultRetries this) (RequestConfig.retries config) = N →
  0 ≤ N →
  (∀ a, 0 ≤ a < N → untyped_attempt_fails type_error_text (net a) = true) →
  net N = Responded {| Response.status := st; Response.json := body |} →
  ¬ (200 ≤ st ≤ 299) →
  ∃ tr,
    Untyped.makeRequest cfg type_error_text this b net endpoint config
    = Some (tr, Untyped.Threw (Untyped.ThrownApi
        match body with
        | JsonRejects _ =>
            {| Untyped.ApiError.message := "HTTP " +:+ pretty st;
               Untyped.ApiError.status := st;
               Untyped.ApiError.errors := JArr [] |}
        | JsonResolves JNull =>
            {| Untyped.ApiError.message :=
                 if decide (type_error_text (ReadOfNull "message") = "")
                 then "Network error"
                 else type_error_text (ReadOfNull "message");
               Untyped.ApiError.status := 0;
               Untyped.ApiError.errors := JArr [] |}
        | JsonResolves v =>
            match
              js_to_string
                match js_get "message" v with
                | Some (Val m) =>
                    if js_truthy m then m else JStr ("HTTP " +:+ pretty st)
                | _ => JStr ("HTTP " +:+ pretty st)
                end
            with
            | None =>
                {| Untyped.ApiError.message :=
                     if decide (type_error_text ObjectToPrimitive = "")
                     then "Network error"
                     else type_error_text ObjectToPrimitive;
                   Untyped.ApiError.status := 0;
                   Untyped.ApiError.errors := JArr [] |}
            | Some text =>
                {| Untyped.ApiError.message := text;
                   Untyped.ApiError.status := st;
                   Untyped.ApiError.errors :=
                     match js_get "errors" v with
                     | Some (Val x) => if js_truthy x then x else JArr []
                     | _ => JArr []
                     end |}
            end
        end)).
Proof.
  intros HN Hpos Hfail Hnet Hst.
  destruct (untyped_makeRequest_settles cfg type_error_text this b net endpoint
              config N) as (tr & Hrun & _);
    [lia|done|right; by rewrite HN|].
  exists tr. rewrite Hrun, Hnet. f_equal. f_equal.
  unfold Untyped.attempt_body, Response.ok. simpl.
  assert ((200 <=? st) && (st <=? 299) = false) as ->.
  { destruct (Z.leb_spec 200 st), (Z.leb_spec st 299); simpl; try done. lia. }
  simpl. destruct body as [e|v]; [done|].
  destruct v as [|flag|text|text|items|fields]; simpl; try done.
  destruct (fields !! "message") as [m|], (fields !! "errors") as [x|]; simpl;
    try done;
    destruct (js_truthy m); simpl; try done;
    by destruct (js_to_string m).
Qed.

Section Hook.


End Hook.
End UntypedClaims.

(** ** The typed engine is the untyped one on bodies that honour the
    wire contract *)

Section Agreement.
Context {J : Type} `{ErrorBody J}.
Variable cfg : APP_CONFIG.api_t.
Variable type_error_text : TypeErrorCause → string.

Lemma as_json_message (v : J) :
  js_get "message" (as_json v)
  = Some match field_message v with
         | Some m => Val (JStr m)
         | None => Undefined
         end.
Proof.
  unfold as_json, js_get.
  destruct (field_message v) as [m|], (field_errors v) as [l|];
    by simplify_map_eq.
Qed.

Lemma as_json_errors (v : J) :
  js_get "errors" (as_json v)
  = Some match field_errors v with
         | Some l => Val (JArr (JStr <$> l))
         | None => Undefined
         end.
Proof.
  unfold as_json, js_get.
  destruct (field_message v) as [m|], (field_errors v) as [l|];
    by simplify_map_eq.
Qed.

Lemma untyped_attempt_body_agrees (o : FetchOutcome J) :
  Untyped.attempt_body type_error_text (as_json_outcome o)
  = as_untyped_completion (ApiClient.attempt_body o).
Proof.
  destruct o as [e| |[st body]]; [done|done|].
  unfold Untyped.attempt_body, ApiClient.attempt_body, as_json_outcome.
  cbn [Response.status Response.json Response.ok].
  destruct (negb _); [|by destruct body].
  destruct body as [e|v]; [done|].
  rewrite as_json_message, as_json_errors. simpl.
  unfold as_untyped_error, ApiError.new, Untyped.ApiError.new. simpl.
  assert (match
            match field_message v with
            | Some m => Val (JStr m)
            | None => Undefined
            end
          with
          | Val m => if js_truthy m then js_to_string m
                     else Some ("HTTP " +:+ pretty st)
          | Undefined => Some ("HTTP " +:+ pretty st)
          end
          = Some (str_or (field_message v) ("HTTP " +:+ pretty st))) as ->.
  { destruct (field_message v) as [m|]; simpl; [|done].
    case_bool_decide; case_decide; simpl; congruence. }
  do 3 f_equal. by destruct (field_errors v).
Qed.

Lemma untyped_final_error_agrees (t : Thrown) :
  as_untyped_completion (J := J) (Threw (ApiClient.final_error t))
  = Untyped.Threw
      (Untyped.final_error
         match t with
         | ThrownApi e => Untyped.ThrownApi (as_untyped_error e)
         | ThrownJs e => Untyped.ThrownJs e
         end).
Proof. destruct t as [e|e]; simpl; [done|]. by case_decide. Qed.

(** On a network whose bodies honour the wire contract, the untyped engine
    makes the same network calls and waits as the typed one and ends with
    the same completion. *)
Lemma untyped_makeRequest_agrees (this : ApiClient.t) (b : Browser.t)
    (net : Z → FetchOutcome J) (endpoint : string) (config : RequestConfig.t) :
  Untyped.makeRequest cfg type_error_text this b (λ a, as_json_outcome (net a))
    endpoint config
  = (λ r, (r.1, as_untyped_completion r.2))
      <$> ApiClient.makeRequest cfg this b net endpoint config.
Proof.
  unfold Untyped.makeRequest, ApiClient.makeRequest.
  generalize (ApiClient.loop_fuel
    (default (ApiClient.defaultRetries this) (RequestConfig.retries config))).
  generalize 0 at 1 2. intros a fuel. revert a.
  induction fuel as [|fuel IH]; intros a; [done|].
  simpl. destruct (a <=? _); [|done].
  rewrite untyped_attempt_body_agrees.
  destruct (ApiClient.attempt_body (net a)) as [data|t]; [done|].
  destruct (a =? _).
  - destruct t as [e|e]; simpl; [done|]. by case_decide.
  - destruct t as [e|e]; simpl; rewrite IH;
      by destruct (ApiClient.retry_loop _ _ _ _ _ _ _ _) as [[tr c]|].
Qed.

End Agreement.

(** * The paginated hook, revisited *)

Section PaginatedRevised.
Context {T : Type}.
Variable apiCall : list (Z * Z) → Z → Z → Completion (PaginatedResponse.t T).
Variable limit : Z.

Local Abbreviation fetchData := (UsePaginatedApi.fetchData apiCall limit).
Local Abbreviation loadMore := (UsePaginatedApi.loadMore apiCall limit).
Local Abbreviation refetch := (UsePaginatedApi.refetch apiCall limit).

(** C10, amended. [fetchData] itself changes the page counter, [data] and
    [hasMore] only when the producer returns a success envelope, and
    [refetch] sets the counter to 1 before its fetch whatever the outcome.
    So when a [loadMore] fails, which asked for the page after the counter,
    the counter and [data] are as before and the next [loadMore] asks for
    the same page number again. *)
Theorem failed_loadMore_is_retried (s : UsePaginatedApi.state T) :
  UsePaginatedApi.hasMore s = true →
  UsePaginatedApi.loading s = false →
  page_fetch_failed
    (apiCall (UsePaginatedApi.calls s) (UsePaginatedApi.page s + 1) limit) = true →
  UsePaginatedApi.page (loadMore s) = UsePaginatedApi.page s ∧
  UsePaginatedApi.data (loadMore s) = UsePaginatedApi.data s ∧
  UsePaginatedApi.hasMore (loadMore s) = true ∧
  UsePaginatedApi.loading (loadMore s) = false ∧
  UsePaginatedApi.calls (loadMore s)
  = UsePaginatedApi.calls s ++ [(UsePaginatedApi.page s + 1, limit)] ∧
  UsePaginatedApi.calls (loadMore (loadMore s))
  = UsePaginatedApi.calls s
      ++ [(UsePaginatedApi.page s + 1, limit); (UsePaginatedApi.page s + 1, limit)] ∧
  (∀ pageNum append s0,
     page_fetch_failed (apiCall (UsePaginatedApi.calls s0) pageNum limit) = true →
     UsePaginatedApi.page (fetchData pageNum append s0) = UsePaginatedApi.page s0 ∧
     UsePaginatedApi.data (fetchData pageNum append s0) = UsePaginatedApi.data s0 ∧
     UsePaginatedApi.hasMore (fetchData pageNum append s0)
     = UsePaginatedApi.hasMore s0) ∧
  (∀ s0, UsePaginatedApi.page (refetch s0) = 1).
Proof.
  intros Hmore Hidle Hfailed.
  assert (loadMore s
          = {| UsePaginatedApi.data := UsePaginatedApi.data s;
               UsePaginatedApi.loading := false;
               UsePaginatedApi.error :=
                 UsePaginatedApi.error (loadMore s);
               UsePaginatedApi.page := UsePaginatedApi.page s;
               UsePaginatedApi.hasMore := true;
               UsePaginatedApi.calls :=
                 UsePaginatedApi.calls s
                   ++ [(UsePaginatedApi.page s + 1, limit)] |}) as Hfirst.
  { unfold UsePaginatedApi.loadMore. rewrite Hmore, Hidle. simpl andb. cbv iota.
    destruct (fetchData_failed apiCall limit (UsePaginatedApi.page s + 1) true
                s Hfailed) as [msg ->].
    simpl. by rewrite Hmore. }
  rewrite Hfirst. do 5 (split; [reflexivity|]). split; [|split].
  - unfold UsePaginatedApi.loadMore at 1.
    cbn [UsePaginatedApi.hasMore UsePaginatedApi.loading UsePaginatedApi.page
         UsePaginatedApi.calls negb andb].
    rewrite (fetchData_calls apiCall limit). simpl.
    by rewrite <- (assoc_L (++)).
  - intros pageNum append s0 Hf.
    by destruct (fetchData_failed apiCall limit pageNum append s0 Hf) as [msg ->].
  - intros s0. unfold UsePaginatedApi.refetch.
    destruct (fetchData_cases apiCall limit 1 false (UsePaginatedApi.setPage 1 s0))
      as [(response & Hcall & Hok)|Hf].
    + by rewrite (fetchData_success apiCall limit 1 false _ response Hcall Hok).
    + by destruct (fetchData_failed apiCall limit 1 false _ Hf) as [msg ->].
Qed.

(** The state after [n] calls of [loadMore] that all succeed. *)
Lemma loaded_more_state (pages : Z → PaginatedResponse.t T) (n : nat)
    (s : UsePaginatedApi.state T) :
  UsePaginatedApi.loading s = false →
  UsePaginatedApi.hasMore s = true →
  (∀ history p, apiCall history p limit = Returned (pages p)) →
  (∀ p, UsePaginatedApi.page s < p ≤ UsePaginatedApi.page s + Z.of_nat n →
        PaginatedResponse.success (pages p) = true) →
  (∀ p, UsePaginatedApi.page s < p < UsePaginatedApi.page s + Z.of_nat n →
        PaginatedResponse.has_next_or_false (pages p) = true) →
  loaded_more apiCall limit n s
  = {| UsePaginatedApi.data :=
         UsePaginatedApi.data s
           ++ pages_after pages (UsePaginatedApi.page s) (Z.of_nat n);
       UsePaginatedApi.loading := false;
       UsePaginatedApi.error := UsePaginatedApi.error s;
       UsePaginatedApi.page := UsePaginatedApi.page s + Z.of_nat n;
       UsePaginatedApi.hasMore :=
         match n with
         | O => true
         | S _ =>
             PaginatedResponse.has_next_or_false
               (pages (UsePaginatedApi.page s + Z.of_nat n))
         end;
       UsePaginatedApi.calls :=
         UsePaginatedApi.calls s
           ++ ((λ p, (p, limit))
                 <$> seqZ (UsePaginatedApi.page s + 1) (Z.of_nat n)) |}.
Proof.
  intros Hidle Hmore Hcall. induction n as [|n IH]; intros Hok Hnext.
  - unfold loaded_more, pages_after. simpl. rewrite !app_nil_r, Z.add_0_r.
    destruct s; simpl in *. by subst.
  - unfold loaded_more in *. simpl Nat.iter.
    rewrite IH; [|intros; apply Hok; lia|intros; apply Hnext; lia].
    unfold UsePaginatedApi.loadMore.
    cbn [UsePaginatedApi.hasMore UsePaginatedApi.loading UsePaginatedApi.page
         UsePaginatedApi.calls negb].
    assert (match n with
            | O => true
            | S _ =>
                PaginatedResponse.has_next_or_false
                  (pages (UsePaginatedApi.page s + Z.of_nat n))
            end = true) as ->.
    { destruct n; [done|]. apply Hnext. lia. }
    simpl andb. cbv iota.
    erewrite fetchData_success; [|apply Hcall|apply Hok; lia].
    cbn [UsePaginatedApi.data UsePaginatedApi.error UsePaginatedApi.calls].
    replace (UsePaginatedApi.page s + Z.of_nat n + 1)
      with (UsePaginatedApi.page s + Z.of_nat (S n)) by lia.
    unfold pages_after.
    rewrite (seqZ_S _ n), bind_app, fmap_app, !(assoc_L (++)). simpl.
    rewrite app_nil_r.
    by replace (UsePaginatedApi.page s + 1 + Z.of_nat n)
      with (UsePaginatedApi.page s + Z.of_nat (S n)) by lia.
Qed.

(** X17. From a state that is not loading and has [hasMore] set, with a
    producer that serves page [p] with the envelope [pages p], each of the
    next [n] pages a success and each but the last of them reporting a
    next page, [n] calls of [loadMore], each run to completion before the
    next and with no other fetch in between, append the items of these
    [n] pages in order, advance the page counter by [n], and call the
    producer exactly once for each of these pages, in order, with the
    limit of the hook. *)
Theorem loadMore_accumulates (pages : Z → PaginatedResponse.t T) (n : nat)
    (s : UsePaginatedApi.state T) :
  UsePaginatedApi.loading s = false →
  UsePaginatedApi.hasMore s = true →
  (∀ history p, apiCall history p limit = Returned (pages p)) →
  (∀ p, UsePaginatedApi.page s < p ≤ UsePaginatedApi.page s + Z.of_nat n →
        PaginatedResponse.success (pages p) = true) →
  (∀ p, UsePaginatedApi.page s < p < UsePaginatedApi.page s + Z.of_nat n →
        PaginatedResponse.has_next_or_false (pages p) = true) →
  UsePaginatedApi.data (loaded_more apiCall limit n s)
  = UsePaginatedApi.data s
      ++ pages_after pages (UsePaginatedApi.page s) (Z.of_nat n) ∧
  UsePaginatedApi.page (loaded_more apiCall limit n s)
  = UsePaginatedApi.page s + Z.of_nat n ∧
  UsePaginatedApi.calls (loaded_more apiCall limit n s)
  = UsePaginatedApi.calls s
      ++ ((λ p, (p, limit)) <$> seqZ (UsePaginatedApi.page s + 1) (Z.of_nat n)) ∧
  UsePaginatedApi.hasMore (loaded_more apiCall limit n s)
  = match n with
    | O => true
    | S _ =>
        PaginatedResponse.has_next_or_false
          (pages (UsePaginatedApi.page s + Z.of_nat n))
    end.
Proof.
  intros Hidle Hmore Hcall Hok Hnext.
  by rewrite (loaded_more_state pages n s Hidle Hmore Hcall Hok Hnext).
Qed.

(** One action from a state that is not loading. *)
Lemma list_step_bounds (s : UsePaginatedApi.state T) (a : ListAction) :
  UsePaginatedApi.loading s = false →
  1 ≤ UsePaginatedApi.page s →
  UsePaginatedApi.loading (list_step apiCall limit s a) = false ∧
  1 ≤ UsePaginatedApi.page (list_step apiCall limit s a)
    ≤ UsePaginatedApi.page s + 1 ∧
  ∃ new,
    UsePaginatedApi.calls (list_step apiCall limit s a)
    = UsePaginatedApi.calls s ++ new ∧
    (length new ≤ 1)%nat ∧
    Forall (λ c, 1 ≤ c.1 ≤ UsePaginatedApi.page s + 1 ∧ c.2 = limit) new.
Proof.
  intros Hidle Hpage.
  assert (∀ pageNum append s0,
    UsePaginatedApi.calls s0 = UsePaginatedApi.calls s →
    1 ≤ UsePaginatedApi.page s0 ≤ UsePaginatedApi.page s + 1 →
    1 ≤ pageNum ≤ UsePaginatedApi.page s + 1 →
    UsePaginatedApi.loading (fetchData pageNum append s0) = false ∧
    1 ≤ UsePaginatedApi.page (fetchData pageNum append s0)
      ≤ UsePaginatedApi.page s + 1 ∧
    ∃ new,
      UsePaginatedApi.calls (fetchData pageNum append s0)
      = UsePaginatedApi.calls s ++ new ∧
      (length new ≤ 1)%nat ∧
      Forall (λ c, 1 ≤ c.1 ≤ UsePaginatedApi.page s + 1 ∧ c.2 = limit) new)
    as Hfetch.
  { intros pageNum append s0 Hsame Hp0 Hp.
    assert (∃ new,
      UsePaginatedApi.calls s ++ [(pageNum, limit)]
      = UsePaginatedApi.calls s ++ new ∧
      (length new ≤ 1)%nat ∧
      Forall (λ c, 1 ≤ c.1 ≤ UsePaginatedApi.page s + 1 ∧ c.2 = limit) new)
      as Hnew.
    { exists [(pageNum, limit)]. split; [done|]. split; [simpl; lia|].
      apply Forall_cons. split; [done|apply Forall_nil_2]. }
    destruct (fetchData_cases apiCall limit pageNum append s0)
      as [(response & Hcall & Hok)|Hfailed].
    - rewrite (fetchData_success apiCall limit pageNum append s0 response Hcall Hok).
      simpl. by rewrite Hsame.
    - destruct (fetchData_failed apiCall limit pageNum append s0 Hfailed)
        as [msg ->].
      simpl. by rewrite Hsame. }
  destruct a; cbn [list_step].
  - unfold UsePaginatedApi.loadMore. rewrite Hidle, andb_true_r.
    destruct (UsePaginatedApi.hasMore s).
    + apply Hfetch; [done|lia|lia].
    + split; [done|]. split; [lia|]. exists []. rewrite app_nil_r.
      split; [done|]. split; [simpl; lia|constructor].
  - unfold UsePaginatedApi.refetch. apply Hfetch; [done|simpl; lia|lia].
  - apply Hfetch; [done|lia|lia].
Qed.

(** X22. From a state that is not loading and whose page counter is at
    least 1, after any sequence of [loadMore] calls, [refetch] calls and
    runs of the effect, each run to completion before the next: [loading]
    is false, the page counter is at least 1 and has grown by at most one
    per action, and the producer was called at most once per action, each
    time with the limit of the hook and a page number between 1 and the
    largest value the counter could have reached plus one. *)
Theorem list_run_invariant (actions : list ListAction)
    (s0 : UsePaginatedApi.state T) :
  UsePaginatedApi.loading s0 = false →
  1 ≤ UsePaginatedApi.page s0 →
  UsePaginatedApi.loading (list_run apiCall limit actions s0) = false ∧
  1 ≤ UsePaginatedApi.page (list_run apiCall limit actions s0)
    ≤ UsePaginatedApi.page s0 + Z.of_nat (length actions) ∧
  ∃ new,
    UsePaginatedApi.calls (list_run apiCall limit actions s0)
    = UsePaginatedApi.calls s0 ++ new ∧
    (length new ≤ length actions)%nat ∧
    Forall (λ c, 1 ≤ c.1 ≤ UsePaginatedApi.page s0 + Z.of_nat (length actions)
                 ∧ c.2 = limit) new.
Proof.
  intros Hidle0 Hpage0.
  induction actions as [|a actions IH] using rev_ind.
  - unfold list_run. simpl. split; [done|]. split; [lia|].
    exists []. rewrite app_nil_r. split; [done|]. split; [done|constructor].
  - destruct IH as (Hidle & Hpage & new & Hcalls & Hlen & Hnew).
    unfold list_run in *. rewrite foldl_snoc, length_app. simpl length.
    destruct (list_step_bounds (foldl (list_step apiCall limit) s0 actions) a)
      as (Hidle' & Hpage' & new' & Hcalls' & Hlen' & Hnew'); [done|lia|].
    split; [done|]. split; [lia|].
    exists (new ++ new'). rewrite Hcalls', Hcalls, (assoc_L (++)).
    split; [done|]. split; [rewrite length_app; lia|].
    apply Forall_app. split.
    + eapply Forall_impl; [exact Hnew|]. simpl. intros c [? ?]. split; [lia|done].
    + eapply Forall_impl; [exact Hnew'|]. simpl. intros c [? ?]. split; [lia|done].
Qed.

(** With a producer that is the same function in every render, the
    renders after a fetch change nothing. *)
Lemma after_renders_same (rounds : nat) (s : UsePaginatedApi.state T) :
  PaginatedRenders.after_renders apiCall limit PaginatedRenders.SameFunction
    rounds s = s.
Proof.
  unfold PaginatedRenders.after_renders.
  induction rounds as [|rounds IH]; [done|]. simpl. by rewrite IH.
Qed.

(** With a producer that is a new function in every render, every render
    fetches page 1 again and replaces what was loaded. *)
Lemma after_renders_new (e1 : PaginatedResponse.t T) (rounds : nat)
    (s : UsePaginatedApi.state T) :
  (∀ history, apiCall history 1 limit = Returned e1) →
  PaginatedResponse.success e1 = true →
  PaginatedRenders.after_renders apiCall limit
    PaginatedRenders.NewFunctionEachRender (S rounds) s
  = {| UsePaginatedApi.data := PaginatedResponse.data e1;
       UsePaginatedApi.loading := false;
       UsePaginatedApi.error := None;
       UsePaginatedApi.page := 1;
       UsePaginatedApi.hasMore := PaginatedResponse.has_next_or_false e1;
       UsePaginatedApi.calls :=
         UsePaginatedApi.calls s ++ replicate (S rounds) (1, limit) |}.
Proof.
  intros Hcall Hok. unfold PaginatedRenders.after_renders.
  induction rounds as [|rounds IH].
  - simpl. by rewrite (fetchData_success apiCall limit 1 false s e1 (Hcall _) Hok).
  - change (Nat.iter (S (S rounds)) ?f ?x) with (f (Nat.iter (S rounds) f x)).
    rewrite IH. cbn [PaginatedRenders.effect_after_render].
    rewrite (fetchData_success apiCall limit 1 false _ e1 (Hcall _) Hok).
    cbn [UsePaginatedApi.calls]. rewrite <- (assoc_L (++)).
    do 2 f_equal.
    change (replicate (S rounds) (1, limit) ++ [(1, limit)])
      with ((1, limit) :: (replicate rounds (1, limit) ++ [(1, limit)])).
    simpl. f_equal. clear. induction rounds as [|r IHr]; [done|].
    simpl. by rewrite IHr.
Qed.

End PaginatedRevised.

(** ** Scenarios of the revisited engine and hook *)


Lemma final_http_error_by_body_witness :
  ∃ tr,
    Untyped.makeRequest APP_CONFIG.api v8_type_error_text sample_client
      sample_browser null_error_net "/users" RequestConfig.empty
    = Some (tr, Untyped.Threw (Untyped.ThrownApi
        {| Untyped.ApiError.message :=
             "Cannot read properties of null (reading 'message')";
           Untyped.ApiError.status := 0;
           Untyped.ApiError.errors := JArr [] |})).
Proof.
  destruct (final_http_error_by_body APP_CONFIG.api v8_type_error_text
              sample_client sample_browser null_error_net "/users"
              RequestConfig.empty 3 500 (JsonResolves JNull))
    as [tr Hrun].
  - reflexivity.
  - lia.
  - intros a _. reflexivity.
  - reflexivity.
  - lia.
  - exists tr. exact Hrun.
Defined.

(** C7. [useProjects(10)] passes an arrow function written in its call, a
    new function in every render, and the effect of [usePaginatedApi]
    depends on it: after the mount and after each [loadMore] the renders
    that the fetch causes fetch page 1 again without appending. With a
    backend that serves [p1, p2], [p3, p4] and [p5], after the mount and
    two calls of [loadMore] the hook holds page 1 alone and its counter is
    1, however many renders there were, and every render made one more
    request; with a producer that is the same function in every render
    the same calls give the three pages in order. *)
Theorem inline_producer_loses_loaded_pages (r0 r1 r2 : nat) :
  UsePaginatedApi.data
    (PaginatedRenders.two_loadMores sample_producer 10
       PaginatedRenders.useProjects (S r0) (S r1) (S r2))
  = ["p1"; "p2"] ∧
  UsePaginatedApi.page
    (PaginatedRenders.two_loadMores sample_producer 10
       PaginatedRenders.useProjects (S r0) (S r1) (S r2))
  = 1 ∧
  length (UsePaginatedApi.calls
            (PaginatedRenders.two_loadMores sample_producer 10
               PaginatedRenders.useProjects (S r0) (S r1) (S r2)))
  = (r0 + r1 + r2 + 6)%nat ∧
  UsePaginatedApi.data
    (PaginatedRenders.two_loadMores sample_producer 10
       PaginatedRenders.SameFunction r0 r1 r2)
  = ["p1"; "p2"; "p3"; "p4"; "p5"] ∧
  UsePaginatedApi.calls
    (PaginatedRenders.two_loadMores sample_producer 10
       PaginatedRenders.SameFunction r0 r1 r2)
  = [(1, 10); (2, 10); (3, 10)].
Proof.
  unfold PaginatedRenders.two_loadMores, PaginatedRenders.useProjects.
  rewrite !after_renders_same.
  rewrite !(after_renders_new sample_producer 10 (sample_page_envelope 1 10))
    by done.
  cbn [UsePaginatedApi.data UsePaginatedApi.page UsePaginatedApi.calls].
  split; [done|]. split; [done|]. split; [|by vm_compute].
  unfold UsePaginatedApi.loadMore.
  cbn [UsePaginatedApi.hasMore UsePaginatedApi.loading UsePaginatedApi.page
       UsePaginatedApi.calls negb andb].
  change (PaginatedResponse.has_next_or_false (sample_page_envelope 1 10))
    with true.
  change (true && true) with true. cbv iota.
  rewrite !(fetchData_calls sample_producer 10).
  cbn [UsePaginatedApi.calls].
  rewrite !length_app, !length_replicate. simpl. lia.
Qed.

(** A fetch that fails can move the page counter, and a failed page can be
    skipped. With two pages loaded, a [refetch] whose fetch is rejected
    leaves the counter at 1, and the [loadMore] after it asks for page 2,
    not for the page 1 that failed. And when the first fetch of the effect
    is rejected, the [loadMore] after it asks for page 2: page 1 was never
    loaded and is not asked for again. *)
Lemma failed_fetch_counterexample :
  UsePaginatedApi.page two_pages_loaded = 2 ∧
  UsePaginatedApi.calls two_pages_loaded = [(1, 10); (2, 10)] ∧
  page_fetch_failed (third_call_fails [(1, 10); (2, 10)] 1 10) = true ∧
  UsePaginatedApi.page (UsePaginatedApi.refetch third_call_fails 10 two_pages_loaded)
  = 1 ∧
  UsePaginatedApi.calls
    (UsePaginatedApi.loadMore third_call_fails 10
       (UsePaginatedApi.refetch third_call_fails 10 two_pages_loaded))
  = [(1, 10); (2, 10); (1, 10); (2, 10)] ∧
  page_fetch_failed (first_call_fails [] 1 10) = true ∧
  UsePaginatedApi.data listing_never_loaded = [] ∧
  UsePaginatedApi.calls
    (UsePaginatedApi.loadMore first_call_fails 10 listing_never_loaded)
  = [(1, 10); (2, 10)] ∧
  UsePaginatedApi.data
    (UsePaginatedApi.loadMore first_call_fails 10 listing_never_loaded)
  = ["p3"; "p4"].
Proof.
  by vm_compute.
Qed.

Lemma failed_loadMore_is_retried_witness :
  UsePaginatedApi.page (UsePaginatedApi.loadMore flaky_producer 10 first_page_listed)
  = 1 ∧
  UsePaginatedApi.data (UsePaginatedApi.loadMore flaky_producer 10 first_page_listed)
  = ["p1"; "p2"] ∧
  UsePaginatedApi.calls
    (UsePaginatedApi.loadMore flaky_producer 10
       (UsePaginatedApi.loadMore flaky_producer 10 first_page_listed))
  = [(1, 10); (2, 10); (2, 10)].
Proof.
  destruct (failed_loadMore_is_retried flaky_producer 10 first_page_listed)
    as (Hpage & Hdata & _ & _ & _ & Hcalls & _).
  - reflexivity.
  - reflexivity.
  - reflexivity.
  - split; [exact Hpage|]. split; [exact Hdata|exact Hcalls].
Defined.

Lemma loadMore_accumulates_witness :
  UsePaginatedApi.data (loaded_more sample_producer 10 2 first_page_listed)
  = ["p1"; "p2"; "p3"; "p4"; "p5"] ∧
  UsePaginatedApi.calls (loaded_more sample_producer 10 2 first_page_listed)
  = [(1, 10); (2, 10); (3, 10)].
Proof.
  destruct (loadMore_accumulates sample_producer 10
              (λ p, sample_page_envelope p 10) 2 first_page_listed)
    as (Hdata & _ & Hcalls & _).
  - reflexivity.
  - reflexivity.
  - reflexivity.
  - simpl. intros p Hp. reflexivity.
  - simpl. intros p Hp.
    assert (p = 2) as -> by lia. reflexivity.
  - split; [exact Hdata|exact Hcalls].
Defined.

Lemma list_run_invariant_witness :
  UsePaginatedApi.loading
    (list_run flaky_producer 10 [DoEffect; DoLoadMore; DoRefetch; DoLoadMore]
       first_page_listed)
  = false ∧
  1 ≤ UsePaginatedApi.page
        (list_run flaky_producer 10 [DoEffect; DoLoadMore; DoRefetch; DoLoadMore]
           first_page_listed)
    ≤ 5.
Proof.
  destruct (list_run_invariant flaky_producer 10
              [DoEffect; DoLoadMore; DoRefetch; DoLoadMore] first_page_listed)
    as (Hidle & Hpage & _).
  - reflexivity.
  - simpl. lia.
  - split; [exact Hidle|exact Hpage].
Defined.

(** A message that cannot be converted to a text ends as a status 0. *)
Example scenario_unconvertible_message :
  snd <$> Untyped.makeRequest APP_CONFIG.api v8_type_error_text sample_client
            sample_browser unconvertible_message_net "/users" RequestConfig.empty
  = Some (Untyped.Threw (Untyped.ThrownApi
      {| Untyped.ApiError.message := "Cannot convert object to primitive value";
         Untyped.ApiError.status := 0;
         Untyped.ApiError.errors := JArr [] |})).
Proof. by vm_compute. Qed.
